(** * ExtensionDebuggerTransport (src/src/index.ts)

    A shallow embedding of the puppeteer connection transport that drives
    a tab through the [chrome.debugger]-shaped facade, and the properties
    of its message protocol.

    Conventions of the embedding.
    - JavaScript values are the JSON-shaped values plus [undefined]; an
      object is the list of its own enumerable properties in property
      order, each key once.  Numbers are the integers (the ids and tab ids
      of the protocol); strings have one [ascii] per code unit.
    - The facade ([DebuggerApi]) is an interface: a record of state
      transformers over the host's state.
    - The event loop is explicit: a clock, the pending [setTimeout]
      callbacks and the continuations of the [await]ed facade promises.
    - The client's [onmessage] and [onclose] functions are opaque: a call
      to one of them is recorded as an observation, and returns. *)

From Stdlib Require Import ZArith List String Ascii Bool Lia DecimalString.
Import ListNotations.
Local Open Scope string_scope.
Local Open Scope Z_scope.
Set Warnings "-register-all".

(** ** JavaScript values *)

Inductive value : Type :=
| VUndefined
| VNull
| VBool (b : bool)
| VNum (n : Z)
| VStr (s : string)
| VArr (xs : list value)
| VObj (ps : list (string * value)).

Definition props : Type := list (string * value).

(** [o[k]] on the own properties of an object. *)
Fixpoint lookup (k : string) (ps : props) : option value :=
  match ps with
  | [] => None
  | (k', v) :: r => if String.eqb k' k then Some v else lookup k r
  end.

Fixpoint remove (k : string) (ps : props) : props :=
  match ps with
  | [] => []
  | (k', v) :: r =>
      if String.eqb k' k then remove k r else (k', v) :: remove k r
  end.

(** Defining the property [k] in an object literal or by assignment
    ([{...o, k: v}], [o.k = v]): an existing key keeps its place, a new
    one goes last. *)
Fixpoint set (k : string) (v : value) (ps : props) : props :=
  match ps with
  | [] => [(k, v)]
  | (k', v') :: r =>
      if String.eqb k' k then (k, v) :: remove k r
      else (k', v') :: set k v r
  end.

Definition string_of_nat (n : nat) : string :=
  NilZero.string_of_uint (Nat.to_uint n).

Definition string_of_Z (n : Z) : string :=
  NilZero.string_of_int (Z.to_int n).

Fixpoint indexed {A : Type} (f : A -> value) (i : nat) (xs : list A) : props :=
  match xs with
  | [] => []
  | x :: r => (string_of_nat i, f x) :: indexed f (S i) r
  end.

(** The properties copied by a spread [{...v}]: the own enumerable
    properties of an object, the elements of an array and the characters
    of a string under their indices, nothing for the other primitives. *)
Definition spread (v : value) : props :=
  match v with
  | VObj ps => ps
  | VArr xs => indexed (fun x => x) 0 xs
  | VStr s => indexed (fun c => VStr (String c EmptyString)) 0 (list_ascii_of_string s)
  | _ => []
  end.

(** [v.k] for the keys the transport reads off a parsed message or a
    rejection reason ([method], [params], [message]), none of which is an
    index or lives on a built-in prototype.  [None] is the TypeError of
    reading a property of [null] or [undefined]. *)
Definition get (v : value) (k : string) : option value :=
  match v with
  | VUndefined | VNull => None
  | VObj ps => Some (match lookup k ps with Some x => x | None => VUndefined end)
  | _ => Some VUndefined
  end.

(** [v?.k] *)
Definition get_opt (v : value) (k : string) : value :=
  match get v k with Some x => x | None => VUndefined end.

(** ToBoolean *)
Definition truthy (v : value) : bool :=
  match v with
  | VUndefined | VNull => false
  | VBool b => b
  | VNum n => negb (n =? 0)
  | VStr s => negb (String.eqb s "")
  | VArr _ | VObj _ => true
  end.

(** ** JSON.stringify *)

Inductive json : Type :=
| JNull
| JBool (b : bool)
| JNum (n : Z)
| JStr (s : string)
| JArr (xs : list json)
| JObj (ms : list (string * json)).

(** SerializeJSONProperty: [None] is [undefined], which an object leaves
    out and an array writes as [null]. *)
Fixpoint to_json (v : value) : option json :=
  match v with
  | VUndefined => None
  | VNull => Some JNull
  | VBool b => Some (JBool b)
  | VNum n => Some (JNum n)
  | VStr s => Some (JStr s)
  | VArr xs =>
      Some (JArr ((fix elems (l : list value) : list json :=
                     match l with
                     | [] => []
                     | x :: r =>
                         match to_json x with
                         | Some j => j
                         | None => JNull
                         end :: elems r
                     end) xs))
  | VObj ps =>
      Some (JObj ((fix members (l : props) : list (string * json) :=
                     match l with
                     | [] => []
                     | (k, x) :: r =>
                         match to_json x with
                         | Some j => (k, j) :: members r
                         | None => members r
                         end
                     end) ps))
  end.

Fixpoint members (ps : props) : list (string * json) :=
  match ps with
  | [] => []
  | (k, x) :: r =>
      match to_json x with
      | Some j => (k, j) :: members r
      | None => members r
      end
  end.

Definition hex_digit (n : nat) : ascii :=
  match n with
  | 0 => "0" | 1 => "1" | 2 => "2" | 3 => "3" | 4 => "4" | 5 => "5"
  | 6 => "6" | 7 => "7" | 8 => "8" | 9 => "9" | 10 => "a" | 11 => "b"
  | 12 => "c" | 13 => "d" | 14 => "e" | _ => "f"
  end%char%nat.

(** QuoteJSONString, one code unit at a time. *)
Definition quote_char (c : ascii) : string :=
  let n := nat_of_ascii c in
  if Nat.eqb n 8 then "\b"
  else if Nat.eqb n 9 then "\t"
  else if Nat.eqb n 10 then "\n"
  else if Nat.eqb n 12 then "\f"
  else if Nat.eqb n 13 then "\r"
  else if Nat.eqb n 34 then String "\" (String (ascii_of_nat 34) EmptyString)
  else if Nat.eqb n 92 then "\\"
  else if Nat.ltb n 32 then
    "\u00" ++ String (hex_digit (n / 16)) (String (hex_digit (n mod 16)) EmptyString)
  else String c EmptyString.

Fixpoint quote_chars (s : string) : string :=
  match s with
  | EmptyString => EmptyString
  | String c r => quote_char c ++ quote_chars r
  end.

Definition dquote : string := String (ascii_of_nat 34) EmptyString.

Definition quote (s : string) : string := dquote ++ quote_chars s ++ dquote.

Fixpoint render (j : json) : string :=
  match j with
  | JNull => "null"
  | JBool true => "true"
  | JBool false => "false"
  | JNum n => string_of_Z n
  | JStr s => quote s
  | JArr xs =>
      "[" ++ (fix items (l : list json) : string :=
                match l with
                | [] => ""
                | [x] => render x
                | x :: r => render x ++ "," ++ items r
                end) xs ++ "]"
  | JObj ms =>
      "{" ++ (fix fields (l : list (string * json)) : string :=
                match l with
                | [] => ""
                | [(k, x)] => quote k ++ ":" ++ render x
                | (k, x) :: r => quote k ++ ":" ++ render x ++ "," ++ fields r
                end) ms ++ "}"
  end.

(** [JSON.stringify(v)] of an object [v]: always a string, kept here as
    the document it writes; [render] is its text. *)
Definition JSON_stringify (ps : props) : json :=
  JObj (members ps).

(** The member [k] of a JSON document. *)
Fixpoint jlookup (k : string) (ms : list (string * json)) : option json :=
  match ms with
  | [] => None
  | (k', j) :: r => if String.eqb k' k then Some j else jlookup k r
  end.

Definition field (k : string) (j : json) : option json :=
  match j with
  | JObj ms => jlookup k ms
  | _ => None
  end.

Definition has_field (k : string) (j : json) : bool :=
  match field k j with Some _ => true | None => false end.

(** [a === b] on primitives; two objects are equal only when they are the
    same object, which never holds between a value of the host and one
    the transport keeps. *)
Definition strict_equal (a b : value) : bool :=
  match a, b with
  | VUndefined, VUndefined => true
  | VNull, VNull => true
  | VBool x, VBool y => Bool.eqb x y
  | VNum x, VNum y => x =? y
  | VStr x, VStr y => String.eqb x y
  | _, _ => false
  end.

(** The own property [k] of an object, [undefined] when it has none. *)
Definition prop (ps : props) (k : string) : value :=
  match lookup k ps with Some x => x | None => VUndefined end.

(** ** The facade and the event loop *)

(** chrome.debugger.Debuggee, of which only [tabId] is ever set or read. *)
Record Debuggee : Type := { tabId : value }.

(** The settlement of a promise of the facade. *)
Inductive settled (A : Type) : Type :=
| Resolved (a : A)
| Rejected (reason : value).
Arguments Resolved {A} a.
Arguments Rejected {A} reason.

(** What a promise of the transport rejects with. *)
Inductive exn : Type :=
| SyntaxError
| TypeError
| Error (message : string)
| Reason (reason : value).

(** [DebuggerApi]: what the transport calls on the host, over the host's
    state [F].  A [chrome.debugger.TargetInfo] is an object. *)
Record DebuggerApi (F : Type) : Type := {
  attach : Debuggee -> string -> F -> settled unit * F;
  detach : Debuggee -> F -> settled unit * F;
  sendCommand : Debuggee -> value -> value -> F -> settled value * F;
  getTargets : F -> settled (list props) * F;
}.
Arguments attach {F} _ _ _ _.
Arguments detach {F} _ _ _.
Arguments sendCommand {F} _ _ _ _ _.
Arguments getTargets {F} _ _.

(** A reference to a function of the client. *)
Definition fn : Type := nat.

(** The fields of an [ExtensionDebuggerTransport]. *)
Record Transport : Type := {
  target : props;
  debugee : Debuggee;
  delay : Z;
  _sessionId : value;
  onmessage : option fn;
  onclose : option fn;
}.

(** The callbacks handed to [setTimeout]. *)
Inductive task : Type :=
| DeliverResponse (response : props)   (* the arrow function of [_delaySend] *)
| CallClose.                           (* [() => this.close()] *)

(** The continuations of the [await]s, each with the settlement of the
    promise it waits for. *)
Inductive job : Type :=
| AfterSendCommand (command : value) (r : settled value)   (* in [send] *)
| AfterDetach (r : settled unit).                          (* in [close] *)

(** What the client observes. *)
Inductive obs : Type :=
| OnMessage (f : fn) (message : json)   (* [onmessage.call(null, message)] *)
| OnClose (f : fn)                      (* [onclose.call(null)] *)
| SendRejected (e : exn)                (* the promise of [send] rejects *)
| CloseRejected (e : exn).              (* the promise of [close] rejects *)

(** The global [Function] binding that [_initialize] may replace. *)
Inductive FunctionCtor : Type :=
| NativeFunction
| Serializer (f : fn)   (* the caller's [functionSerializer] *)
| NoopFactory.          (* [function () { return () => {}; }] *)

(** ** The running transport *)

Record World (F : Type) : Type := {
  this : Transport;
  host : F;
  now : Z;                    (* the clock, in ms *)
  timers : list (Z * task);   (* pending timeouts with their due times *)
  jobs : list job;            (* suspended [await]s *)
}.
Arguments this {F} _.
Arguments host {F} _.
Arguments now {F} _.
Arguments timers {F} _.
Arguments jobs {F} _.

(** A synchronous piece of code: it updates the world and makes the
    client observe something. *)
Definition action (F : Type) : Type := World F -> World F * list obs.

Definition skip {F : Type} : action F := fun w => (w, []).

Definition seq {F : Type} (a b : action F) : action F :=
  fun w => let (w1, o1) := a w in let (w2, o2) := b w1 in (w2, (o1 ++ o2)%list).

Notation "a ;; b" := (seq a b) (at level 61, right associativity).

Definition observe {F : Type} (o : obs) : action F := fun w => (w, [o]).

Definition with_timers {F : Type} (ts : list (Z * task)) (w : World F) : World F :=
  {| this := this w; host := host w; now := now w; timers := ts; jobs := jobs w |}.

Definition with_jobs {F : Type} (js : list job) (w : World F) : World F :=
  {| this := this w; host := host w; now := now w; timers := timers w; jobs := js |}.

Definition with_host {F : Type} (h : F) (w : World F) : World F :=
  {| this := this w; host := h; now := now w; timers := timers w; jobs := jobs w |}.

Definition with_this {F : Type} (t : Transport) (w : World F) : World F :=
  {| this := t; host := host w; now := now w; timers := timers w; jobs := jobs w |}.

Definition with_now {F : Type} (n : Z) (w : World F) : World F :=
  {| this := this w; host := host w; now := n; timers := timers w; jobs := jobs w |}.

Section Transport.

Context {F : Type}.
Variable api : DebuggerApi F.

(** [JSON.parse], [None] when it throws. *)
Variable JSON_parse : string -> option value.

(** [setTimeout(t, d)]: a negative delay counts as zero. *)
Definition setTimeout (t : task) (d : Z) : action F :=
  fun w => (with_timers (timers w ++ [(now w + Z.max 0 d, t)])%list w, []).

Definition _emit (event : props) : action F :=
  fun w =>
    match onmessage (this w) with
    | Some f => (w, [OnMessage f (JSON_stringify event)])
    | None => (w, [])
    end.

Definition _delaySend (response : props) : action F :=
  fun w => setTimeout (DeliverResponse response) (delay (this w)) w.

Definition _emitTargetCreated : action F :=
  fun w =>
    _emit [("method", VStr "Target.targetCreated");
           ("params", VObj [("targetInfo", VObj (target (this w)))])] w.

Definition _emitTargetAttached : action F :=
  fun w =>
    _emit [("method", VStr "Target.attachedToTarget");
           ("params", VObj [("targetInfo", VObj (target (this w)));
                            ("sessionId", _sessionId (this w));
                            ("waitingForDebugger", VBool false)])] w.

Definition _emitTargetDetached : action F :=
  fun w =>
    _emit [("method", VStr "Target.detachedFromTarget");
           ("params", VObj [("targetId", prop (target (this w)) "id");
                            ("sessionId", _sessionId (this w))])] w.

Definition _closeTarget : action F :=
  _emitTargetDetached ;;
  (fun w =>
     match onclose (this w) with
     | Some f => (w, [OnClose f])
     | None => (w, [])
     end).

Definition targetCommands : list string :=
  ["Target.getBrowserContexts";
   "Target.setDiscoverTargets";
   "Target.attachToTarget";
   "Target.activateTarget";
   "Target.closeTarget"].

(** [targetCommands.includes(m)] *)
Definition includes (l : list string) (m : value) : bool :=
  match m with
  | VStr s => existsb (String.eqb s) l
  | _ => false
  end.

Definition is_method (m : value) (name : string) : bool :=
  strict_equal m (VStr name).

Definition _handleTargetCommand (command : value) : action F :=
  fun w =>
    let response := set "result" (VObj []) (set "error" VUndefined (spread command)) in
    let m := get_opt command "method" in
    if is_method m "Target.getBrowserContexts" then
      _delaySend (set "result" (VObj [("browserContextIds", VArr [])]) response) w
    else if is_method m "Target.setDiscoverTargets" then
      (_emitTargetCreated ;; _delaySend (set "result" VNull response)) w
    else if is_method m "Target.attachToTarget" then
      (_emitTargetAttached ;;
       _delaySend (set "result" (VObj [("sessionId", _sessionId (this w))]) response)) w
    else if is_method m "Target.activateTarget" then
      _delaySend (set "result" VNull response) w
    else if is_method m "Target.closeTarget" then
      (setTimeout CallClose (delay (this w)) ;;
       _delaySend (set "result" (VObj [("success", VBool true)]) response)) w
    else
      _delaySend response w.

(** [send] up to its [await]. *)
Definition send (message : string) : action F :=
  fun w =>
    match JSON_parse message with
    | None => (w, [SendRejected SyntaxError])
    | Some command =>
        match get command "method" with
        | None => (w, [SendRejected TypeError])
        | Some m =>
            if includes targetCommands m then _handleTargetCommand command w
            else
              let (r, h) :=
                sendCommand api (debugee (this w)) m (get_opt command "params") (host w) in
              (with_jobs (jobs w ++ [AfterSendCommand command r])%list (with_host h w), [])
        end
    end.

(** [close] up to its [await]. *)
Definition close : action F :=
  fun w =>
    let (r, h) := detach api (debugee (this w)) (host w) in
    (with_jobs (jobs w ++ [AfterDetach r])%list (with_host h w), []).

(** The code after an [await], run once the promise has settled. *)
Definition resume (j : job) : action F :=
  match j with
  | AfterSendCommand command (Resolved result) =>
      _delaySend (set "result" result (set "error" VUndefined (spread command)))
  | AfterSendCommand command (Rejected error) =>
      _delaySend (set "error" (VObj [("message", get_opt error "message")])
                      (spread command))
  | AfterDetach (Resolved _) => _closeTarget
  | AfterDetach (Rejected error) => observe (CloseRejected (Reason error))
  end.

(** The callback of a timeout. *)
Definition fire (t : task) : action F :=
  match t with
  | DeliverResponse response => _emit response
  | CallClose => close
  end.

(** The listener the constructor adds to [onEvent]. *)
Definition onEvent_listener (source : Debuggee) (method : string) (params : value)
  : action F :=
  fun w =>
    let event := [("method", VStr method);
                  ("params", params);
                  ("sessionId", _sessionId (this w))] in
    if strict_equal (tabId source) (prop (target (this w)) "tabId")
    then _emit event w
    else (w, []).

(** The listener the constructor adds to [onDetach]. *)
Definition onDetach_listener (source : Debuggee) : action F :=
  fun w =>
    if strict_equal (tabId source) (prop (target (this w)) "tabId")
    then _closeTarget w
    else (w, []).

(** ** The event loop *)

(** What happens to a transport from outside: the client's calls and
    assignments, the host's notifications, the settlement of an awaited
    promise, and time. *)
Inductive input : Type :=
| Send (message : string)
| Close
| SetOnmessage (f : option fn)
| SetOnclose (f : option fn)
| SetDelay (d : Z)
| HostEvent (source : Debuggee) (method : string) (params : value)
| HostDetach (source : Debuggee)
| Settle (k : nat)     (* the suspended await number [k] resumes *)
| Elapse (dt : Z)      (* [dt] ms pass *)
| Expire.             (* the earliest timeout that is due runs *)

Fixpoint earliest (ts : list (Z * task)) : option Z :=
  match ts with
  | [] => None
  | (d, _) :: r =>
      match earliest r with
      | None => Some d
      | Some m => Some (Z.min d m)
      end
  end.

(** The first timeout due at [d], and the others. *)
Fixpoint take_due (d : Z) (ts : list (Z * task)) : option (task * list (Z * task)) :=
  match ts with
  | [] => None
  | (d', t) :: r =>
      if d' =? d then Some (t, r)
      else match take_due d r with
           | Some (t', r') => Some (t', (d', t) :: r')
           | None => None
           end
  end.

Definition drop_nth {A : Type} (k : nat) (l : list A) : list A :=
  (firstn k l ++ skipn (S k) l)%list.

Definition set_onmessage (f : option fn) (t : Transport) : Transport :=
  {| target := target t; debugee := debugee t; delay := delay t;
     _sessionId := _sessionId t; onmessage := f; onclose := onclose t |}.

Definition set_onclose (f : option fn) (t : Transport) : Transport :=
  {| target := target t; debugee := debugee t; delay := delay t;
     _sessionId := _sessionId t; onmessage := onmessage t; onclose := f |}.

Definition set_delay (d : Z) (t : Transport) : Transport :=
  {| target := target t; debugee := debugee t; delay := d;
     _sessionId := _sessionId t; onmessage := onmessage t; onclose := onclose t |}.

Definition step (i : input) : action F :=
  fun w =>
    match i with
    | Send message => send message w
    | Close => close w
    | SetOnmessage f => (with_this (set_onmessage f (this w)) w, [])
    | SetOnclose f => (with_this (set_onclose f (this w)) w, [])
    | SetDelay d => (with_this (set_delay d (this w)) w, [])
    | HostEvent source method params => onEvent_listener source method params w
    | HostDetach source => onDetach_listener source w
    | Settle k =>
        match nth_error (jobs w) k with
        | Some j => resume j (with_jobs (drop_nth k (jobs w)) w)
        | None => (w, [])
        end
    | Elapse dt => (with_now (now w + Z.max 0 dt) w, [])
    | Expire =>
        match earliest (timers w) with
        | Some d =>
            if d <=? now w then
              match take_due d (timers w) with
              | Some (t, ts) => fire t (with_timers ts w)
              | None => (w, [])
              end
            else (w, [])
        | None => (w, [])
        end
    end.

Fixpoint run (ins : list input) : action F :=
  match ins with
  | [] => skip
  | i :: r => step i ;; run r
  end.

(** ** Construction *)

(** The test of the filter in [_getTargetInfo]. *)
Definition attached_to (debugee : Debuggee) (target : props) : bool :=
  truthy (prop target "attached")
  && strict_equal (prop target "tabId") (tabId debugee).

Definition _getTargetInfo (debugee : Debuggee) (h : F) : (exn + props) * F :=
  match getTargets api h with
  | (Rejected e, h1) => (inl (Reason e), h1)
  | (Resolved targets, h1) =>
      let target :=
        map (fun target =>
               set "canAccessOpener" (VBool false)
                   (set "targetId" (prop target "id") target))
            (filter (attached_to debugee) targets) in
      match target with
      | [] => (inl (Error "target not found"), h1)
      | t :: _ => (inr t, h1)
      end
  end.

(** The constructor; the two listeners it adds are [onEvent_listener]
    and [onDetach_listener], which the host reaches through [HostEvent]
    and [HostDetach]. *)
Definition new_Transport (target : props) : Transport :=
  {| target := target;
     debugee := {| tabId := prop target "tabId" |};
     delay := 40;
     _sessionId := prop target "id";
     onmessage := None;
     onclose := None |}.

(** [_initialize]: the new binding of the global [Function];
    [can_construct] tells whether [new Function()] returns. *)
Definition _initialize (functionSerializer : option fn) (can_construct : bool)
  (current : FunctionCtor) : FunctionCtor :=
  match functionSerializer with
  | Some f => Serializer f
  | None => if can_construct then current else NoopFactory
  end.

Definition create (tabId : Z) (functionSerializer : option fn)
  (can_construct : bool) (current : FunctionCtor) (h : F)
  : (exn + Transport) * F * FunctionCtor :=
  let debugee := {| tabId := VNum tabId |} in
  match attach api debugee "1.3" h with
  | (Rejected e, h1) => (inl (Reason e), h1, current)
  | (Resolved _, h1) =>
      match _getTargetInfo debugee h1 with
      | (inl e, h2) => (inl e, h2, current)
      | (inr target, h2) =>
          (inr (new_Transport target), h2,
           _initialize functionSerializer can_construct current)
      end
  end.

(** The world of a transport that [create] has just returned. *)
Definition start (t : Transport) (h : F) : World F :=
  {| this := t; host := h; now := 0; timers := []; jobs := [] |}.

End Transport.

(** ** The envelopes *)

(** The [CDPCommand] interface: [id: number], [method: string],
    [params: any], [sessionId?: string], and nothing else. *)
Definition is_CDPCommand (v : value) : bool :=
  match v with
  | VObj ps =>
      forallb (fun kv => existsb (String.eqb (fst kv))
                           ["id"; "method"; "params"; "sessionId"]) ps
      && match lookup "id" ps with Some (VNum _) => true | _ => false end
      && match lookup "method" ps with Some (VStr _) => true | _ => false end
      && match lookup "sessionId" ps with
         | None | Some (VStr _) => true
         | _ => false
         end
  | _ => false
  end.

(** A document with exactly one of [result] and [error]. *)
Definition one_of_result_error (doc : json) : bool :=
  xorb (has_field "result" doc) (has_field "error" doc).

(** What a delivered message must look like for the client to tell a
    reply from an event: an Event Envelope has no [id], a Response
    Envelope has one, with exactly one of [result] and [error]. *)
Definition is_event (doc : json) : bool :=
  has_field "method" doc && negb (has_field "id" doc)
  && negb (has_field "result" doc) && negb (has_field "error" doc).

Definition is_response (doc : json) : bool :=
  has_field "id" doc && one_of_result_error doc.

Definition messages_of (os : list obs) : list json :=
  flat_map (fun o => match o with OnMessage _ m => [m] | _ => [] end) os.

(** How many of the messages are events named [name]. *)
Definition events_named (name : string) (os : list obs) : nat :=
  List.length
    (filter (fun doc => match field "method" doc, field "id" doc with
                        | Some (JStr m), None => String.eqb m name
                        | _, _ => false
                        end)
            (messages_of os)).

Definition closes_of (os : list obs) : nat :=
  List.length (filter (fun o => match o with OnClose _ => true | _ => false end) os).

(** The world once [_delaySend(response)] has set its timeout. *)
Definition paced {F : Type} (response : props) (w : World F) : World F :=
  with_timers
    (timers w ++ [(now w + Z.max 0 (delay (this w)), DeliverResponse response)])%list w.

(** The reply carries the [id], [method] and [params] of the command. *)
Definition echoes (command : value) (response : props) : Prop :=
  forall k, In k ["id"; "method"; "params"] ->
    field k (JSON_stringify response) = field k (JSON_stringify (spread command)).

(** What the pending timeouts and suspended calls of a transport hold
    while its client sends Command Envelopes and the facade returns
    objects: replies that are Response Envelopes, and calls made for
    Command Envelopes that did not resolve to [undefined]. *)
Definition timer_ok (t : Z * task) : Prop :=
  match snd t with
  | DeliverResponse response => is_response (JSON_stringify response) = true
  | CallClose => True
  end.

Definition job_ok (j : job) : Prop :=
  match j with
  | AfterSendCommand command r =>
      is_CDPCommand command = true /\ r <> Resolved VUndefined
  | AfterDetach _ => True
  end.

Definition invariant {F : Type} (w : World F) : Prop :=
  Forall timer_ok (timers w) /\ Forall job_ok (jobs w).

Definition obs_ok (o : obs) : Prop :=
  match o with
  | OnMessage _ doc => is_event doc = true \/ is_response doc = true
  | _ => True
  end.

(** An action that keeps the invariant and hands over well-formed
    envelopes only. *)
Definition keeps_envelopes {F : Type} (a : action F) : Prop :=
  forall w w' os,
    invariant w -> a w = (w', os) -> invariant w' /\ Forall obs_ok os.

(** The inputs other than the client setting an [onmessage]. *)
Definition leaves_onmessage (i : input) : bool :=
  match i with
  | SetOnmessage (Some _) => false
  | _ => true
  end.

(** The inputs whose messages are Command Envelopes. *)
Definition sends_commands (parse : string -> option value) (i : input) : bool :=
  match i with
  | Send message =>
      match parse message with
      | Some command => is_CDPCommand command
      | None => true
      end
  | _ => true
  end.

(** ** A host for the examples

    A small facade: tabs 7 and 8 exist, a tab can be attached once and
    detached only while attached, and a few commands have fixed answers.
    Its state is the list of the attached tabs and the log of the calls. *)
Module Demo.

Inductive call : Type :=
| CallAttach (d : Debuggee) (version : string)
| CallDetach (d : Debuggee)
| CallSendCommand (d : Debuggee) (method params : value)
| CallGetTargets.

Record Host : Type := { attached_tabs : list Z; calls : list call }.

Definition logged (c : call) (tabs : list Z) (h : Host) : Host :=
  {| attached_tabs := tabs; calls := (calls h ++ [c])%list |}.

Definition new_Error (message : string) : value :=
  VObj [("message", VStr message)].

Definition is_attached (n : Z) (h : Host) : bool :=
  existsb (Z.eqb n) (attached_tabs h).

Definition demo_attach (d : Debuggee) (version : string) (h : Host)
  : settled unit * Host :=
  match tabId d with
  | VNum n =>
      if ((n =? 7) || (n =? 8)) && negb (is_attached n h)
      then (Resolved tt, logged (CallAttach d version) (n :: attached_tabs h) h)
      else (Rejected (new_Error "Cannot attach to this target."),
            logged (CallAttach d version) (attached_tabs h) h)
  | _ => (Rejected (new_Error "No target specified."),
          logged (CallAttach d version) (attached_tabs h) h)
  end.

Definition demo_detach (d : Debuggee) (h : Host) : settled unit * Host :=
  match tabId d with
  | VNum n =>
      if is_attached n h
      then (Resolved tt,
            logged (CallDetach d) (filter (fun m => negb (m =? n)) (attached_tabs h)) h)
      else (Rejected (new_Error "Debugger is not attached to the tab."),
            logged (CallDetach d) (attached_tabs h) h)
  | _ => (Rejected (new_Error "No target specified."),
          logged (CallDetach d) (attached_tabs h) h)
  end.

Definition demo_sendCommand (d : Debuggee) (method params : value) (h : Host)
  : settled value * Host :=
  let h' := logged (CallSendCommand d method params) (attached_tabs h) h in
  if strict_equal method (VStr "Page.navigate")
  then (Resolved (VObj [("frameId", VStr "F1")]), h')
  else if strict_equal method (VStr "Page.close")
  then (Rejected (new_Error "No tab with given id"), h')
  else if strict_equal method (VStr "Page.crash")
  then (Rejected (VStr "crashed"), h')
  else (Resolved (VObj []), h').

Definition tab_info (n : Z) (id : string) (h : Host) : props :=
  [("attached", VBool (is_attached n h));
   ("id", VStr id);
   ("tabId", VNum n);
   ("title", VStr "");
   ("type", VStr "page");
   ("url", VStr "about:blank")].

Definition demo_getTargets (h : Host) : settled (list props) * Host :=
  (Resolved [tab_info 8 "B2" h; tab_info 7 "A1" h],
   logged CallGetTargets (attached_tabs h) h).

Definition api : DebuggerApi Host :=
  {| attach := demo_attach;
     detach := demo_detach;
     sendCommand := demo_sendCommand;
     getTargets := demo_getTargets |}.

Definition fresh : Host := {| attached_tabs := []; calls := [] |}.

(** JSON text is written here with ['] for the double quote. *)
Fixpoint js (s : string) : string :=
  match s with
  | EmptyString => EmptyString
  | String c r =>
      String (if Ascii.eqb c "'" then ascii_of_nat 34 else c) (js r)
  end.

(** The messages of the examples, with what [JSON.parse] makes of them. *)
Definition command (id : Z) (method : string) (params : value) : value :=
  VObj [("id", VNum id); ("method", VStr method); ("params", params)].

Definition getBrowserContexts : string :=
  js "{'id':1,'method':'Target.getBrowserContexts','params':{}}".
Definition navigate : string :=
  js "{'id':2,'method':'Page.navigate','params':{'url':'https://example.com'}}".
Definition pageClose : string :=
  js "{'id':3,'method':'Page.close','params':{}}".
Definition setDiscoverTargets : string :=
  js "{'id':4,'method':'Target.setDiscoverTargets','params':{'discover':true}}".
Definition attachToTarget : string :=
  js "{'id':5,'method':'Target.attachToTarget','params':{'targetId':'A1','flatten':true}}".
Definition activateTarget : string :=
  js "{'id':6,'method':'Target.activateTarget','params':{'targetId':'A1'}}".
Definition closeTarget : string :=
  js "{'id':7,'method':'Target.closeTarget','params':{'targetId':'A1'}}".
Definition pageCrash : string :=
  js "{'id':8,'method':'Page.crash','params':{}}".
Definition pageEnable : string :=
  js "{'id':9,'method':'Page.enable','params':{},'sessionId':'A1'}".
Definition strayResult : string :=
  js "{'id':10,'method':'Page.close','params':{},'result':0}".

Definition messages : list (string * value) :=
  [(getBrowserContexts, command 1 "Target.getBrowserContexts" (VObj []));
   (navigate,
    command 2 "Page.navigate" (VObj [("url", VStr "https://example.com")]));
   (pageClose, command 3 "Page.close" (VObj []));
   (setDiscoverTargets,
    command 4 "Target.setDiscoverTargets" (VObj [("discover", VBool true)]));
   (attachToTarget,
    command 5 "Target.attachToTarget"
            (VObj [("targetId", VStr "A1"); ("flatten", VBool true)]));
   (activateTarget,
    command 6 "Target.activateTarget" (VObj [("targetId", VStr "A1")]));
   (closeTarget,
    command 7 "Target.closeTarget" (VObj [("targetId", VStr "A1")]));
   (pageCrash, command 8 "Page.crash" (VObj []));
   (pageEnable,
    VObj [("id", VNum 9); ("method", VStr "Page.enable"); ("params", VObj []);
          ("sessionId", VStr "A1")]);
   (strayResult,
    VObj [("id", VNum 10); ("method", VStr "Page.close"); ("params", VObj []);
          ("result", VNum 0)])].

Definition parse (message : string) : option value :=
  lookup message messages.

(** The transport [create] returns for tab 7, with both callbacks set. *)
Definition host7 : Host :=
  {| attached_tabs := [7];
     calls := [CallAttach {| tabId := VNum 7 |} "1.3"; CallGetTargets] |}.

Definition target7 : props :=
  [("attached", VBool true); ("id", VStr "A1"); ("tabId", VNum 7);
   ("title", VStr ""); ("type", VStr "page"); ("url", VStr "about:blank");
   ("targetId", VStr "A1"); ("canAccessOpener", VBool false)].

Definition transport7 : Transport :=
  set_onclose (Some 2%nat) (set_onmessage (Some 1%nat) (new_Transport target7)).

Definition world7 : World Host := start transport7 host7.

Definition tab (n : Z) : Debuggee := {| tabId := VNum n |}.

(** The [Target.detachedFromTarget] event of that transport. *)
Definition detached7 : json :=
  JObj [("method", JStr "Target.detachedFromTarget");
        ("params", JObj [("targetId", JStr "A1"); ("sessionId", JStr "A1")])].

(** A session in which everything happens. *)
Definition busy_session : list input :=
  [Send setDiscoverTargets; Send attachToTarget; Send pageEnable;
   Send navigate; Send pageClose; Send pageCrash;
   HostEvent (tab 7) "Page.frameNavigated" (VObj []);
   Settle 1; Settle 0; Settle 1; Settle 0; Elapse 40;
   Expire; Expire; Expire; Expire; Expire; Expire;
   Send closeTarget; Elapse 40; Expire; Expire; Settle 0].

(** The same transport before the client has set [onmessage]. *)
Definition silent7 : World Host :=
  start (set_onclose (Some 2%nat) (new_Transport target7)) host7.

(** Notifications about other tabs. *)
Definition strangers : list input :=
  [HostEvent (tab 8) "Page.loadEventFired" (VObj []);
   HostDetach (tab 8);
   HostEvent {| tabId := VUndefined |} "Page.loadEventFired" VNull].

(** A facade whose [detach] never fails. *)
Definition lenient : DebuggerApi Host :=
  {| attach := demo_attach;
     detach := fun d h => (Resolved tt, logged (CallDetach d) (attached_tabs h) h);
     sendCommand := demo_sendCommand;
     getTargets := demo_getTargets |}.

End Demo.

(** ** Replies owed, order of the timeouts, other tabs *)

Definition is_reply_task (t : Z * task) : bool :=
  match snd t with
  | DeliverResponse _ => true
  | CallClose => false
  end.

Definition is_send_job (j : job) : bool :=
  match j with
  | AfterSendCommand _ _ => true
  | AfterDetach _ => false
  end.

(** The replies the transport still owes: those waiting for their
    timeout and those whose [sendCommand] has not been resumed. *)
Definition owed {F : Type} (w : World F) : nat :=
  (List.length (filter is_reply_task (timers w))
   + List.length (filter is_send_job (jobs w)))%nat.

(** A [send] that gets past [command.method]. *)
Definition accepted (parse : string -> option value) (i : input) : nat :=
  match i with
  | Send message =>
      match parse message with
      | Some command =>
          match get command "method" with Some _ => 1%nat | None => 0%nat end
      | None => 0%nat
      end
  | _ => 0%nat
  end.

Fixpoint accepted_all (parse : string -> option value) (ins : list input) : nat :=
  match ins with
  | [] => 0%nat
  | i :: r => (accepted parse i + accepted_all parse r)%nat
  end.

(** How many of the messages handed over are Response Envelopes. *)
Definition replies_of (os : list obs) : nat :=
  List.length (filter is_response (messages_of os)).

(** The inputs that leave an [onmessage] in place. *)
Definition keeps_onmessage (i : input) : bool :=
  match i with
  | SetOnmessage None => false
  | _ => true
  end.

(** The inputs other than the client changing [delay]. *)
Definition keeps_delay (i : input) : bool :=
  match i with
  | SetDelay _ => false
  | _ => true
  end.

(** Timeouts in the order of their due times. *)
Fixpoint sorted_due (ts : list (Z * task)) : Prop :=
  match ts with
  | [] => True
  | t :: r => (forall x, In x r -> fst t <= fst x) /\ sorted_due r
  end.

(** The pending timeouts are in the order of their due times, none due
    later than a timeout set now would be. *)
Definition orderly {F : Type} (w : World F) : Prop :=
  sorted_due (timers w)
  /\ forall x, In x (timers w) -> fst x <= now w + Z.max 0 (delay (this w)).

(** A notification of the host about a tab that is not the transport's. *)
Definition from_other_tab {F : Type} (w : World F) (i : input) : bool :=
  match i with
  | HostEvent source _ _ | HostDetach source =>
      negb (strict_equal (tabId source) (prop (target (this w)) "tabId"))
  | _ => false
  end.

(** The inputs that may call the facade: a [send], a [close], and a
    timeout, which may be the one of [Target.closeTarget]. *)
Definition may_call_facade (i : input) : bool :=
  match i with
  | Send _ | Close | Expire => true
  | _ => false
  end.

(** The document carries the [id], [method], [params] and [sessionId] of
    the command. *)
Definition echoes_command (command : value) (doc : json) : Prop :=
  forall k, In k ["id"; "method"; "params"; "sessionId"] ->
    field k doc = field k (JSON_stringify (spread command)).

(** The document answers a command that was sent among [ins]. *)
Definition answers (parse : string -> option value) (ins : list input)
  (doc : json) : Prop :=
  exists message command,
    In (Send message) ins /\ parse message = Some command
    /\ echoes_command command doc.

(** Nothing but events is handed over. *)
Definition events_only (os : list obs) : Prop :=
  forall doc, In doc (messages_of os) -> is_event doc = true.

(** Every reply that is pending, and every suspended call, comes from a
    command sent among [sent]. *)
Definition pending_answers {F : Type} (parse : string -> option value)
  (sent : list input) (w : World F) : Prop :=
  (forall due response,
     In (due, DeliverResponse response) (timers w) ->
     answers parse sent (JSON_stringify response))
  /\ (forall command r,
        In (AfterSendCommand command r) (jobs w) ->
        exists message, In (Send message) sent /\ parse message = Some command).

(** * Properties *)

(** ** Objects and their serialization *)

Lemma lookup_remove_same (k : string) (ps : props) :
  lookup k (remove k ps) = None.
Proof.
  induction ps as [|[k' v] r IH]; simpl; [reflexivity|].
  destruct (String.eqb k' k) eqn:E; simpl; [exact IH|].
  rewrite E. exact IH.
Qed.

Lemma lookup_remove_other (k k' : string) (ps : props) :
  k <> k' -> lookup k (remove k' ps) = lookup k ps.
Proof.
  intros Hne. induction ps as [|[k0 v] r IH]; simpl; [reflexivity|].
  destruct (String.eqb k0 k') eqn:E; simpl.
  - apply String.eqb_eq in E. subst k0.
    destruct (String.eqb k' k) eqn:E'; [|exact IH].
    apply String.eqb_eq in E'. congruence.
  - destruct (String.eqb k0 k); [reflexivity|exact IH].
Qed.

Lemma lookup_set_same (k : string) (v : value) (ps : props) :
  lookup k (set k v ps) = Some v.
Proof.
  induction ps as [|[k' v'] r IH]; simpl.
  - now rewrite String.eqb_refl.
  - destruct (String.eqb k' k) eqn:E; simpl.
    + now rewrite String.eqb_refl.
    + now rewrite E.
Qed.

Lemma lookup_set_other (k k' : string) (v : value) (ps : props) :
  k <> k' -> lookup k (set k' v ps) = lookup k ps.
Proof.
  intros Hne. induction ps as [|[k0 v0] r IH]; simpl.
  - destruct (String.eqb k' k) eqn:E; [|reflexivity].
    apply String.eqb_eq in E. congruence.
  - destruct (String.eqb k0 k') eqn:E; simpl.
    + apply String.eqb_eq in E. subst k0.
      destruct (String.eqb k' k) eqn:E'.
      * apply String.eqb_eq in E'. congruence.
      * now apply lookup_remove_other.
    + destruct (String.eqb k0 k); [reflexivity|exact IH].
Qed.

Lemma prop_set_same (k : string) (v : value) (ps : props) :
  prop (set k v ps) k = v.
Proof. unfold prop. now rewrite lookup_set_same. Qed.

Lemma prop_set_other (k k' : string) (v : value) (ps : props) :
  k <> k' -> prop (set k' v ps) k = prop ps k.
Proof. intros H. unfold prop. now rewrite lookup_set_other. Qed.

Lemma to_json_VObj (ps : props) : to_json (VObj ps) = Some (JObj (members ps)).
Proof. reflexivity. Qed.

Lemma to_json_undefined (v : value) : to_json v = None <-> v = VUndefined.
Proof. destruct v; simpl; split; congruence. Qed.

Lemma jlookup_remove_same (k : string) (ps : props) :
  jlookup k (members (remove k ps)) = None.
Proof.
  induction ps as [|[k' v] r IH]; simpl; [reflexivity|].
  destruct (String.eqb k' k) eqn:E; simpl; [exact IH|].
  destruct (to_json v); simpl; [|exact IH].
  rewrite E. exact IH.
Qed.

Lemma jlookup_remove_other (k k' : string) (ps : props) :
  k <> k' -> jlookup k (members (remove k' ps)) = jlookup k (members ps).
Proof.
  intros Hne. induction ps as [|[k0 v] r IH]; simpl; [reflexivity|].
  destruct (String.eqb k0 k') eqn:E; simpl.
  - apply String.eqb_eq in E. subst k0.
    destruct (to_json v); simpl; [|exact IH].
    destruct (String.eqb k' k) eqn:E'; [|exact IH].
    apply String.eqb_eq in E'. congruence.
  - destruct (to_json v); simpl; [|exact IH].
    destruct (String.eqb k0 k); [reflexivity|exact IH].
Qed.

(** After [{..., k: v}] the document has the member [k] exactly when [v]
    is defined, and then it is the serialization of [v]. *)
Lemma jlookup_set_same (k : string) (v : value) (ps : props) :
  jlookup k (members (set k v ps)) = to_json v.
Proof.
  induction ps as [|[k' v'] r IH]; simpl.
  - destruct (to_json v); simpl; [|reflexivity]. now rewrite String.eqb_refl.
  - destruct (String.eqb k' k) eqn:E; simpl.
    + destruct (to_json v); simpl.
      * now rewrite String.eqb_refl.
      * apply jlookup_remove_same.
    + destruct (to_json v'); simpl; [|exact IH]. now rewrite E.
Qed.

Lemma jlookup_set_other (k k' : string) (v : value) (ps : props) :
  k <> k' -> jlookup k (members (set k' v ps)) = jlookup k (members ps).
Proof.
  intros Hne. induction ps as [|[k0 v0] r IH]; simpl.
  - destruct (to_json v); simpl; [|reflexivity].
    destruct (String.eqb k' k) eqn:E; [|reflexivity].
    apply String.eqb_eq in E. congruence.
  - destruct (String.eqb k0 k') eqn:E; simpl.
    + apply String.eqb_eq in E. subst k0.
      assert (Hr : jlookup k (members (remove k' r)) = jlookup k (members r))
        by now apply jlookup_remove_other.
      assert (Hk : String.eqb k' k = false).
      { apply String.eqb_neq. congruence. }
      destruct (to_json v), (to_json v0); simpl; rewrite ?Hk; exact Hr.
    + destruct (to_json v0); simpl; [|exact IH].
      destruct (String.eqb k0 k); [reflexivity|exact IH].
Qed.

Lemma jlookup_absent (k : string) (ps : props) :
  (forall kv, In kv ps -> fst kv <> k) -> jlookup k (members ps) = None.
Proof.
  induction ps as [|[k' v] r IH]; simpl; intros H; [reflexivity|].
  assert (Hk : String.eqb k' k = false).
  { apply String.eqb_neq. apply (H (k', v)). now left. }
  destruct (to_json v); simpl; rewrite ?Hk; apply IH; intros kv Hin; apply H; now right.
Qed.

Lemma jlookup_first (k : string) (ps : props) (v : value) (j : json) :
  lookup k ps = Some v -> to_json v = Some j -> jlookup k (members ps) = Some j.
Proof.
  induction ps as [|[k' v'] r IH]; simpl; [discriminate|].
  destruct (String.eqb k' k) eqn:E.
  - intros [= ->] Hj. rewrite Hj. simpl. now rewrite E.
  - intros Hl Hj. destruct (to_json v'); simpl; rewrite ?E; now apply IH.
Qed.

(** In an object the member [k] of the document is the serialization of
    the property [k]. *)
Lemma jlookup_members (k : string) (ps : props) :
  NoDup (map fst ps) ->
  jlookup k (members ps)
  = match lookup k ps with Some v => to_json v | None => None end.
Proof.
  induction ps as [|[k' v] r IH]; simpl; intros Hnd; [reflexivity|].
  inversion Hnd as [|? ? Hnotin Hnd']; subst.
  destruct (String.eqb k' k) eqn:E.
  - apply String.eqb_eq in E. subst k'.
    destruct (to_json v) eqn:Ev; simpl.
    + now rewrite String.eqb_refl.
    + apply jlookup_absent. intros kv Hin Heq. apply Hnotin.
      rewrite <- Heq. now apply in_map.
  - destruct (to_json v); simpl; rewrite ?E; now apply IH.
Qed.

Lemma field_members (k : string) (ps : props) :
  NoDup (map fst ps) ->
  field k (JSON_stringify ps)
  = match lookup k ps with Some v => to_json v | None => None end.
Proof. apply jlookup_members. Qed.

(** The keys of an object literal are distinct. *)
Ltac distinct_keys :=
  simpl; repeat constructor; simpl; intuition discriminate.

Lemma field_set_same (k : string) (v : value) (ps : props) :
  field k (JSON_stringify (set k v ps)) = to_json v.
Proof. apply jlookup_set_same. Qed.

Lemma field_set_other (k k' : string) (v : value) (ps : props) :
  k <> k' ->
  field k (JSON_stringify (set k' v ps)) = field k (JSON_stringify ps).
Proof. apply jlookup_set_other. Qed.

Lemma is_CDPCommand_keys (command : value) (k : string) :
  is_CDPCommand command = true ->
  ~ In k ["id"; "method"; "params"; "sessionId"] ->
  lookup k (spread command) = None
  /\ field k (JSON_stringify (spread command)) = None.
Proof.
  destruct command as [| | | | | |ps]; try discriminate.
  unfold is_CDPCommand. cbn [spread]. intros H Hk.
  apply andb_prop in H as [H _]. apply andb_prop in H as [H _].
  apply andb_prop in H as [H _].
  rewrite forallb_forall in H.
  assert (Hne : forall kv, In kv ps -> fst kv <> k).
  { intros kv Hin Heq. apply H in Hin.
    apply existsb_exists in Hin as [x [Hx Hx']].
    apply String.eqb_eq in Hx'. apply Hk. rewrite <- Heq, Hx'. exact Hx. }
  split; [|now apply jlookup_absent].
  clear H. induction ps as [|[k' v] r IH]; simpl; [reflexivity|].
  destruct (String.eqb k' k) eqn:E.
  - apply String.eqb_eq in E. exfalso. apply (Hne (k', v)); [now left|exact E].
  - apply IH. intros kv Hin. apply Hne. now right.
Qed.

Lemma is_CDPCommand_id (command : value) :
  is_CDPCommand command = true ->
  has_field "id" (JSON_stringify (spread command)) = true.
Proof.
  destruct command as [| | | | | |ps]; simpl; try discriminate.
  intros H.
  apply andb_prop in H as [H _]. apply andb_prop in H as [H _].
  apply andb_prop in H as [_ H].
  destruct (lookup "id" ps) as [[| | |n| | |]|] eqn:E; try discriminate.
  unfold has_field, JSON_stringify, field.
  now rewrite (jlookup_first "id" ps (VNum n) (JNum n) E eq_refl).
Qed.

Lemma is_CDPCommand_method (command : value) :
  is_CDPCommand command = true ->
  exists s, get command "method" = Some (VStr s).
Proof.
  destruct command as [| | | | | |ps]; simpl; try discriminate.
  intros H.
  apply andb_prop in H as [H _]. apply andb_prop in H as [_ H].
  destruct (lookup "method" ps) as [[| | | |s| |]|] eqn:E; try discriminate.
  now exists s.
Qed.

Section Protocol.

Context {F : Type}.
Variable api : DebuggerApi F.
Variable JSON_parse : string -> option value.

Lemma delaySend_paced (response : props) (w : World F) :
  _delaySend response w = (paced response w, []).
Proof. reflexivity. Qed.

Lemma fire_response (response : props) (w : World F) (f : fn) :
  onmessage (this w) = Some f ->
  fire api (DeliverResponse response) w = (w, [OnMessage f (JSON_stringify response)]).
Proof. intros H. simpl. unfold _emit. now rewrite H. Qed.

(** [k] is one of the listed keys, so it is not the key being set. *)
Ltac other_key Hk :=
  intros ->; simpl in Hk;
  repeat (destruct Hk as [Hk|Hk]; try discriminate); contradiction.

(** C1.  A command outside the emulated set is forwarded with one call of
    the facade's [sendCommand], and [send] suspends.  Once the call has
    settled, the continuation schedules one Response Envelope with the
    pacing delay, which echoes the [id], [method] and [params] of the
    request: if the call succeeded, [result] is the value the facade
    returned and there is no [error]; if it failed, [error.message] is the
    failure's message (absent when it has none) and there is no [result].
    The timeout hands that envelope to [onmessage]. *)
Theorem forwarded_command_response
  (w : World F) (message : string) (command m : value) :
  JSON_parse message = Some command ->
  is_CDPCommand command = true ->
  get command "method" = Some m ->
  includes targetCommands m = false ->
  let call := sendCommand api (debugee (this w)) m (get_opt command "params") (host w) in
  send api JSON_parse message w
  = (with_jobs (jobs w ++ [AfterSendCommand command (fst call)])
       (with_host (snd call) w), [])
  /\ (forall result (w1 : World F),
        exists response,
          resume (AfterSendCommand command (Resolved result)) w1
          = (paced response w1, [])
          /\ echoes command response
          /\ field "result" (JSON_stringify response) = to_json result
          /\ field "error" (JSON_stringify response) = None)
  /\ (forall reason (w1 : World F),
        exists response error,
          resume (AfterSendCommand command (Rejected reason)) w1
          = (paced response w1, [])
          /\ echoes command response
          /\ field "error" (JSON_stringify response) = Some error
          /\ field "message" error = to_json (get_opt reason "message")
          /\ field "result" (JSON_stringify response) = None)
  /\ (forall response (w2 : World F) f,
        onmessage (this w2) = Some f ->
        fire api (DeliverResponse response) w2
        = (w2, [OnMessage f (JSON_stringify response)])).
Proof.
  intros Hparse Hcmd Hm Hfwd call.
  split; [|split; [|split]].
  - unfold send. rewrite Hparse, Hm, Hfwd. subst call.
    now destruct (sendCommand api _ _ _ _).
  - intros result w1.
    exists (set "result" result (set "error" VUndefined (spread command))).
    split; [reflexivity|split; [|split]].
    + intros k Hk.
      rewrite !field_set_other; [reflexivity| |]; other_key Hk.
    + apply field_set_same.
    + rewrite field_set_other by discriminate. apply field_set_same.
  - intros reason w1.
    exists (set "error" (VObj [("message", get_opt reason "message")]) (spread command)).
    exists (JSON_stringify [("message", get_opt reason "message")]).
    split; [reflexivity|split; [|split; [|split]]].
    + intros k Hk.
      rewrite field_set_other; [reflexivity|]. other_key Hk.
    + rewrite field_set_same. reflexivity.
    + unfold JSON_stringify. simpl.
      destruct (to_json (get_opt reason "message")); simpl; reflexivity.
    + rewrite field_set_other by discriminate.
      apply (is_CDPCommand_keys command "result" Hcmd).
      simpl. intros Hk. repeat (destruct Hk as [Hk|Hk]; try discriminate).
      contradiction.
  - intros response w2 f Hf. now apply fire_response.
Qed.

Lemma send_emulated (w : World F) (message : string) (command : value) (name : string) :
  JSON_parse message = Some command ->
  get command "method" = Some (VStr name) ->
  In name targetCommands ->
  send api JSON_parse message w = _handleTargetCommand command w
  /\ get_opt command "method" = VStr name.
Proof.
  intros Hparse Hm Hin. unfold send, get_opt. rewrite Hparse, Hm. split; [|reflexivity].
  assert (H : includes targetCommands (VStr name) = true).
  { apply existsb_exists. exists name. split; [exact Hin|apply String.eqb_refl]. }
  now rewrite H.
Qed.

Lemma echoes_reply (command : value) (x y z : value) :
  echoes command (set "result" x (set "result" y (set "error" z (spread command)))).
Proof.
  intros k Hk. rewrite !field_set_other; [reflexivity| | |]; other_key Hk.
Qed.

(** C3.  The emulated commands answer with their fixed results, each
    reply being scheduled with the pacing delay and echoing the request:
    [Target.getBrowserContexts] gives [{browserContextIds: []}];
    [Target.attachToTarget] gives a result whose [sessionId] is the
    transport's session identifier, and emits at once one
    [Target.attachedToTarget] event with [waitingForDebugger] false;
    [Target.activateTarget] gives [null]; [Target.closeTarget] gives
    [{success: true}] and sets, with the same delay, a timeout that calls
    [close]. *)
Theorem emulated_target_commands
  (w : World F) (message : string) (command : value) (f : fn) :
  JSON_parse message = Some command ->
  onmessage (this w) = Some f ->
  (get command "method" = Some (VStr "Target.getBrowserContexts") ->
   exists response,
     send api JSON_parse message w = (paced response w, [])
     /\ echoes command response
     /\ field "result" (JSON_stringify response)
        = Some (JObj [("browserContextIds", JArr [])]))
  /\ (get command "method" = Some (VStr "Target.attachToTarget") ->
      exists response result event params,
        send api JSON_parse message w = (paced response w, [OnMessage f event])
        /\ echoes command response
        /\ field "result" (JSON_stringify response) = Some result
        /\ field "sessionId" result = to_json (_sessionId (this w))
        /\ field "method" event = Some (JStr "Target.attachedToTarget")
        /\ field "params" event = Some params
        /\ field "waitingForDebugger" params = Some (JBool false))
  /\ (get command "method" = Some (VStr "Target.activateTarget") ->
      exists response,
        send api JSON_parse message w = (paced response w, [])
        /\ echoes command response
        /\ field "result" (JSON_stringify response) = Some JNull)
  /\ (get command "method" = Some (VStr "Target.closeTarget") ->
      exists response,
        send api JSON_parse message w
        = (paced response
             (with_timers
                (timers w ++ [(now w + Z.max 0 (delay (this w)), CallClose)]) w),
           [])
        /\ echoes command response
        /\ field "result" (JSON_stringify response)
           = Some (JObj [("success", JBool true)])
        /\ fire api CallClose = close api).
Proof.
  intros Hparse Hf.
  split; [|split; [|split]]; intros Hm.
  - destruct (send_emulated w message command _ Hparse Hm) as [-> Hget];
      [simpl; tauto|].
    unfold _handleTargetCommand. rewrite Hget. cbn [is_method strict_equal String.eqb Ascii.eqb Bool.eqb].
    eexists. split; [reflexivity|]. split; [apply echoes_reply|].
    now rewrite field_set_same.
  - destruct (send_emulated w message command _ Hparse Hm) as [-> Hget];
      [simpl; tauto|].
    unfold _handleTargetCommand. rewrite Hget. cbn [is_method strict_equal String.eqb Ascii.eqb Bool.eqb].
    unfold seq, _emitTargetAttached, _emit. rewrite Hf.
    do 4 eexists. split; [reflexivity|]. split; [apply echoes_reply|].
    split; [rewrite field_set_same; apply to_json_VObj|].
    split; [exact (jlookup_set_same "sessionId" _ [])|].
    split; [reflexivity|].
    split; [rewrite field_members by distinct_keys; apply to_json_VObj|].
    change (field "waitingForDebugger"
              (JSON_stringify [("targetInfo", VObj (target (this w)));
                               ("sessionId", _sessionId (this w));
                               ("waitingForDebugger", VBool false)])
            = Some (JBool false)).
    now rewrite field_members by distinct_keys.
  - destruct (send_emulated w message command _ Hparse Hm) as [-> Hget];
      [simpl; tauto|].
    unfold _handleTargetCommand. rewrite Hget. cbn [is_method strict_equal String.eqb Ascii.eqb Bool.eqb].
    eexists. split; [reflexivity|]. split; [apply echoes_reply|].
    now rewrite field_set_same.
  - destruct (send_emulated w message command _ Hparse Hm) as [-> Hget];
      [simpl; tauto|].
    unfold _handleTargetCommand. rewrite Hget. cbn [is_method strict_equal String.eqb Ascii.eqb Bool.eqb].
    eexists. split; [reflexivity|]. split; [apply echoes_reply|].
    split; [now rewrite field_set_same|reflexivity].
Qed.

(** C4.  [Target.setDiscoverTargets] emits at once exactly one
    [Target.targetCreated] event, whose [params.targetInfo] is the
    transport's target descriptor, and schedules with the pacing delay
    its own reply, with [result] null, which the timeout delivers. *)
Theorem setDiscoverTargets_reply_and_event
  (w : World F) (message : string) (command : value) (f : fn) :
  JSON_parse message = Some command ->
  get command "method" = Some (VStr "Target.setDiscoverTargets") ->
  onmessage (this w) = Some f ->
  exists response event params,
    send api JSON_parse message w = (paced response w, [OnMessage f event])
    /\ echoes command response
    /\ field "result" (JSON_stringify response) = Some JNull
    /\ field "error" (JSON_stringify response) = None
    /\ field "method" event = Some (JStr "Target.targetCreated")
    /\ field "params" event = Some params
    /\ field "targetInfo" params = to_json (VObj (target (this w)))
    /\ fire api (DeliverResponse response) (paced response w)
       = (paced response w, [OnMessage f (JSON_stringify response)]).
Proof.
  intros Hparse Hm Hf.
  destruct (send_emulated w message command _ Hparse Hm) as [-> Hget];
    [simpl; tauto|].
  unfold _handleTargetCommand. rewrite Hget.
  cbn [is_method strict_equal String.eqb Ascii.eqb Bool.eqb].
  unfold seq, _emitTargetCreated, _emit. rewrite Hf.
  do 3 eexists. split; [reflexivity|]. split; [apply echoes_reply|].
  split; [now rewrite field_set_same|].
  split; [rewrite !field_set_other by discriminate; apply field_set_same|].
  split; [reflexivity|].
  split; [rewrite field_members by distinct_keys; apply to_json_VObj|].
  split; [exact (jlookup_set_same "targetInfo" _ [])|].
  now apply fire_response.
Qed.

Lemma relay_of_own_tab
  (w : World F) (source : Debuggee) (method : string) (params : value) (f : fn) :
  strict_equal (tabId source) (prop (target (this w)) "tabId") = true ->
  onmessage (this w) = Some f ->
  exists event,
    step api JSON_parse (HostEvent source method params) w
    = (w, [OnMessage f event])
    /\ field "method" event = Some (JStr method)
    /\ field "params" event = to_json params
    /\ field "sessionId" event = to_json (_sessionId (this w)).
Proof.
  intros Htab Hf. simpl. unfold onEvent_listener, _emit. rewrite Htab, Hf.
  eexists. split; [reflexivity|].
  split; [|split]; now rewrite field_members by distinct_keys.
Qed.

(** C6.  A debugging event of the host whose source tab is the
    transport's tab is wrapped as [{method, params, sessionId}], with the
    transport's session identifier, and handed to [onmessage] in the same
    step: no timeout is set and the world is unchanged.  An event from
    another tab calls nothing and changes nothing. *)
Theorem host_event_relay
  (w : World F) (source : Debuggee) (method : string) (params : value) :
  (strict_equal (tabId source) (prop (target (this w)) "tabId") = true ->
   forall f, onmessage (this w) = Some f ->
     exists event,
       step api JSON_parse (HostEvent source method params) w
       = (w, [OnMessage f event])
       /\ field "method" event = Some (JStr method)
       /\ field "params" event = to_json params
       /\ field "sessionId" event = to_json (_sessionId (this w)))
  /\ (strict_equal (tabId source) (prop (target (this w)) "tabId") = false ->
      step api JSON_parse (HostEvent source method params) w = (w, [])).
Proof.
  split.
  - intros Htab f Hf. now apply relay_of_own_tab.
  - intros Htab. simpl. unfold onEvent_listener. now rewrite Htab.
Qed.

Lemma silent_step (i : input) (w : World F) :
  onmessage (this w) = None -> leaves_onmessage i = true ->
  onmessage (this (fst (step api JSON_parse i w))) = None
  /\ messages_of (snd (step api JSON_parse i w)) = [].
Proof.
  intros H Hi.
  destruct i as [message| |[f|]|f|d|source method params|source|k|dt|];
    try discriminate; simpl;
    unfold send, close, onEvent_listener, onDetach_listener, resume, fire,
      _handleTargetCommand, _closeTarget, seq, _emitTargetCreated,
      _emitTargetAttached, _emitTargetDetached, _emit, _delaySend, setTimeout,
      close;
    repeat (simpl; rewrite ?H;
            match goal with
            | |- context [match ?x with _ => _ end] =>
                lazymatch x with
                | context [match _ with _ => _ end] => fail
                | _ => destruct x
                end
            end);
    do 2 (simpl; rewrite ?H); split; reflexivity.
Qed.

Lemma silent_run (ins : list input) (w : World F) :
  onmessage (this w) = None -> forallb leaves_onmessage ins = true ->
  messages_of (snd (run api JSON_parse ins w)) = [].
Proof.
  revert w. induction ins as [|i r IH]; intros w H Hins; [reflexivity|].
  simpl in Hins. apply andb_prop in Hins as [Hi Hr].
  destruct (silent_step i w H Hi) as [H1 Ho].
  cbn [run]. unfold seq.
  destruct (step api JSON_parse i w) as [w1 o1]. simpl in H1, Ho.
  specialize (IH w1 H1 Hr).
  destruct (run api JSON_parse r w1) as [w2 o2]. simpl in IH |- *.
  unfold messages_of in *. rewrite flat_map_app, Ho, IH. reflexivity.
Qed.

(** C10.  While [onmessage] is unset, handing over a message does
    nothing: [_emit] and the callback of a response's timeout return with
    the world unchanged and nothing observed, for every message, and
    [_delaySend] only sets its timeout, the transport's fields staying as
    they are.  So whatever happens to a transport whose client does not
    set [onmessage], no message is ever handed over. *)
Theorem unset_onmessage_drops (w : World F) :
  onmessage (this w) = None ->
  (forall event, _emit event w = (w, []))
  /\ (forall response, fire api (DeliverResponse response) w = (w, []))
  /\ (forall response,
        _delaySend response w = (paced response w, [])
        /\ this (paced response w) = this w
        /\ fire api (DeliverResponse response) (paced response w)
           = (paced response w, []))
  /\ (forall source method params,
        step api JSON_parse (HostEvent source method params) w = (w, []))
  /\ (forall ins,
        forallb leaves_onmessage ins = true ->
        messages_of (snd (run api JSON_parse ins w)) = []).
Proof.
  intros H.
  assert (He : forall event, _emit event w = (w, [])).
  { intros event. unfold _emit. now rewrite H. }
  split; [exact He|]. split; [intros response; apply He|].
  split; [|split].
  - intros response. split; [reflexivity|]. split; [reflexivity|].
    simpl. unfold _emit. simpl. now rewrite H.
  - intros source method params. simpl. unfold onEvent_listener.
    rewrite He. now destruct (strict_equal _ _).
  - intros ins Hins. now apply silent_run.
Qed.

Lemma getTargetInfo_first (d : Debuggee) (h h1 : F)
  (before after : list props) (t : props) :
  getTargets api h = (Resolved (before ++ t :: after)%list, h1) ->
  (forall x, In x before -> attached_to d x = false) ->
  attached_to d t = true ->
  _getTargetInfo api d h
  = (inr (set "canAccessOpener" (VBool false) (set "targetId" (prop t "id") t)), h1).
Proof.
  intros Hg Hb Ht. unfold _getTargetInfo. rewrite Hg.
  rewrite filter_app. simpl. rewrite Ht.
  assert (Hnil : filter (attached_to d) before = []).
  { clear Hg. induction before as [|x r IH]; simpl; [reflexivity|].
    rewrite (Hb x) by now left. apply IH. intros y Hy. apply Hb. now right. }
  now rewrite Hnil.
Qed.

Lemma getTargetInfo_none (d : Debuggee) (h h1 : F) (targets : list props) :
  getTargets api h = (Resolved targets, h1) ->
  (forall x, In x targets -> attached_to d x = false) ->
  _getTargetInfo api d h = (inl (Error "target not found"), h1).
Proof.
  intros Hg Hb. unfold _getTargetInfo. rewrite Hg.
  assert (Hnil : filter (attached_to d) targets = []).
  { clear Hg. induction targets as [|x r IH]; simpl; [reflexivity|].
    rewrite (Hb x) by now left. apply IH. intros y Hy. apply Hb. now right. }
  now rewrite Hnil.
Qed.

(** C9.  [create] calls the facade's [attach] once, for [{tabId}] and
    version 1.3.  If that call fails, [create] fails with the very reason
    of the facade, and the host has seen that one call only.  If it
    succeeds and no entry of the facade's target list is attached with
    the tab's id, [create] fails with the error [target not found].
    Otherwise the transport is built from the first such entry: its
    session identifier is that entry's [id] and its descriptor has
    [canAccessOpener] false. *)
Theorem create_outcomes
  (tab : Z) (functionSerializer : option fn) (can_construct : bool)
  (current : FunctionCtor) (h : F) :
  let d := {| tabId := VNum tab |} in
  (forall reason h1,
     attach api d "1.3" h = (Rejected reason, h1) ->
     create api tab functionSerializer can_construct current h
     = (inl (Reason reason), h1, current))
  /\ (forall u h1 h2 targets,
        attach api d "1.3" h = (Resolved u, h1) ->
        getTargets api h1 = (Resolved targets, h2) ->
        (forall t, In t targets -> attached_to d t = false) ->
        create api tab functionSerializer can_construct current h
        = (inl (Error "target not found"), h2, current))
  /\ (forall u h1 h2 before t after,
        attach api d "1.3" h = (Resolved u, h1) ->
        getTargets api h1 = (Resolved (before ++ t :: after)%list, h2) ->
        (forall x, In x before -> attached_to d x = false) ->
        attached_to d t = true ->
        exists transport,
          create api tab functionSerializer can_construct current h
          = (inr transport, h2, _initialize functionSerializer can_construct current)
          /\ _sessionId transport = prop t "id"
          /\ prop (target transport) "canAccessOpener" = VBool false
          /\ prop (target transport) "tabId" = VNum tab).
Proof.
  intros d. split; [|split].
  - intros reason h1 Ha. unfold create. fold d. now rewrite Ha.
  - intros u h1 h2 targets Ha Hg Hnone. unfold create. fold d. rewrite Ha.
    now rewrite (getTargetInfo_none d h1 h2 targets Hg Hnone).
  - intros u h1 h2 before t after Ha Hg Hb Ht. unfold create. fold d. rewrite Ha.
    rewrite (getTargetInfo_first d h1 h2 before after t Hg Hb Ht).
    eexists. split; [reflexivity|]. simpl.
    split; [|split].
    + now rewrite !prop_set_other by discriminate.
    + apply prop_set_same.
    + rewrite !prop_set_other by discriminate.
      unfold attached_to in Ht. apply andb_prop in Ht as [_ Ht]. simpl in Ht.
      destruct (prop t "tabId"); try discriminate.
      apply Z.eqb_eq in Ht. now subst.
Qed.

(** ** Every delivered envelope is well formed *)

Lemma keeps_seq (a b : action F) :
  keeps_envelopes a -> keeps_envelopes b -> keeps_envelopes (a ;; b).
Proof.
  intros Ha Hb w w' os Hinv. unfold seq.
  destruct (a w) as [w1 o1] eqn:E1. destruct (b w1) as [w2 o2] eqn:E2.
  intros [= <- <-].
  destruct (Ha _ _ _ Hinv E1) as [Hinv1 Ho1].
  destruct (Hb _ _ _ Hinv1 E2) as [Hinv2 Ho2].
  split; [exact Hinv2|]. apply Forall_app. now split.
Qed.

Lemma keeps_pointwise (a : World F -> action F) :
  (forall w0, keeps_envelopes (a w0)) -> keeps_envelopes (fun w => a w w).
Proof. intros H w w' os Hinv E. exact (H w w w' os Hinv E). Qed.

Lemma keeps_emit (event : props) :
  is_event (JSON_stringify event) = true \/ is_response (JSON_stringify event) = true ->
  keeps_envelopes (F := F) (_emit event).
Proof.
  intros Hev w w' os Hinv. unfold _emit.
  destruct (onmessage (this w)); intros [= <- <-]; split; auto.
Qed.

Lemma keeps_setTimeout (t : task) (d : Z) :
  (forall due, timer_ok (due, t)) -> keeps_envelopes (F := F) (setTimeout t d).
Proof.
  intros Ht w w' os [Hts Hjs]. unfold setTimeout. intros [= <- <-].
  split; [|constructor]. split; [|exact Hjs]. simpl.
  apply Forall_app. split; [exact Hts|]. constructor; [apply Ht|constructor].
Qed.

Lemma keeps_delaySend (response : props) :
  is_response (JSON_stringify response) = true ->
  keeps_envelopes (F := F) (_delaySend response).
Proof.
  intros Hr. apply (keeps_pointwise (fun w0 => setTimeout _ (delay (this w0)))).
  intros w0. apply keeps_setTimeout. intros due. exact Hr.
Qed.

Lemma event_has_no_id (method : string) (rest : props) :
  ~ In "id" (map fst rest) -> ~ In "result" (map fst rest) ->
  ~ In "error" (map fst rest) -> ~ In "method" (map fst rest) ->
  is_event (JSON_stringify (("method", VStr method) :: rest)) = true.
Proof.
  intros Hid Hres Herr Hm.
  assert (Habs : forall k, k <> "method" -> ~ In k (map fst rest) ->
            has_field k (JSON_stringify (("method", VStr method) :: rest)) = false).
  { intros k Hk Hnot. unfold has_field, JSON_stringify, field.
    change (members (("method", VStr method) :: rest))
      with (("method", JStr method) :: members rest).
    cbn [jlookup].
    destruct (String.eqb_spec "method" k) as [<-|_]; [congruence|].
    rewrite jlookup_absent; [reflexivity|].
    intros kv Hin Heq. apply Hnot. rewrite <- Heq. now apply in_map. }
  unfold is_event.
  rewrite (Habs "id"), (Habs "result"), (Habs "error")
    by (assumption || discriminate).
  reflexivity.
Qed.

Ltac event_shape := left; apply event_has_no_id; simpl; intuition discriminate.

Lemma keeps_closeTarget : keeps_envelopes (F := F) _closeTarget.
Proof.
  apply keeps_seq.
  - apply (keeps_pointwise (fun w0 => _emit _)). intros w0.
    apply keeps_emit. event_shape.
  - intros w w' os Hinv. destruct (onclose (this w)); intros [= <- <-];
      (split; [exact Hinv|repeat constructor]).
Qed.

Lemma has_field_set_same (k : string) (v : value) (ps : props) :
  has_field k (JSON_stringify (set k v ps))
  = match v with VUndefined => false | _ => true end.
Proof. unfold has_field. rewrite field_set_same. now destruct v. Qed.

Lemma has_field_set_other (k k' : string) (v : value) (ps : props) :
  k <> k' ->
  has_field k (JSON_stringify (set k' v ps)) = has_field k (JSON_stringify ps).
Proof. intros H. unfold has_field. now rewrite field_set_other. Qed.

(** The reply to a Command Envelope with a result and the error cleared. *)
Lemma success_is_response (command result : value) (ps : props) :
  has_field "id" (JSON_stringify ps) = true ->
  has_field "error" (JSON_stringify ps) = false ->
  result <> VUndefined ->
  is_response (JSON_stringify (set "result" result ps)) = true.
Proof.
  intros Hid Herr Hres. unfold is_response, one_of_result_error.
  rewrite has_field_set_same.
  rewrite !has_field_set_other by discriminate. rewrite Hid, Herr.
  now destruct result.
Qed.

Lemma cleared_error (command : value) :
  is_CDPCommand command = true ->
  has_field "id" (JSON_stringify (set "error" VUndefined (spread command))) = true
  /\ has_field "error" (JSON_stringify (set "error" VUndefined (spread command)))
     = false.
Proof.
  intros Hc. split.
  - rewrite has_field_set_other by discriminate. now apply is_CDPCommand_id.
  - now rewrite has_field_set_same.
Qed.

Lemma emulated_is_response (command x : value) :
  is_CDPCommand command = true -> x <> VUndefined ->
  is_response
    (JSON_stringify
       (set "result" x
          (set "result" (VObj []) (set "error" VUndefined (spread command)))))
  = true.
Proof.
  intros Hc Hx. destruct (cleared_error command Hc) as [Hid Herr].
  apply (success_is_response command); [| |exact Hx].
  - now rewrite has_field_set_other by discriminate.
  - now rewrite has_field_set_other by discriminate.
Qed.

Lemma failure_is_response (command message : value) :
  is_CDPCommand command = true ->
  is_response
    (JSON_stringify (set "error" (VObj [("message", message)]) (spread command)))
  = true.
Proof.
  intros Hc. unfold is_response, one_of_result_error.
  rewrite has_field_set_same.
  rewrite !has_field_set_other by discriminate.
  rewrite (is_CDPCommand_id command Hc).
  unfold has_field at 1.
  destruct (is_CDPCommand_keys command "result" Hc) as [_ ->]; [|reflexivity].
  simpl. intuition discriminate.
Qed.

Lemma keeps_emitTargetCreated : keeps_envelopes (F := F) _emitTargetCreated.
Proof.
  apply (keeps_pointwise (fun w0 => _emit _)). intros w0.
  apply keeps_emit. event_shape.
Qed.

Lemma keeps_emitTargetAttached : keeps_envelopes (F := F) _emitTargetAttached.
Proof.
  apply (keeps_pointwise (fun w0 => _emit _)). intros w0.
  apply keeps_emit. event_shape.
Qed.

Lemma keeps_handleTargetCommand (command : value) :
  is_CDPCommand command = true ->
  keeps_envelopes (F := F) (_handleTargetCommand command).
Proof.
  intros Hc w w' os Hinv. unfold _handleTargetCommand.
  assert (Hplain : is_response
            (JSON_stringify
               (set "result" (VObj []) (set "error" VUndefined (spread command))))
          = true).
  { destruct (cleared_error command Hc) as [Hid Herr].
    now apply (success_is_response command). }
  assert (Hreply : forall x, x <> VUndefined ->
            keeps_envelopes (F := F)
              (_delaySend
                 (set "result" x
                    (set "result" (VObj [])
                       (set "error" VUndefined (spread command)))))).
  { intros x Hx. apply keeps_delaySend. now apply emulated_is_response. }
  destruct (is_method _ "Target.getBrowserContexts").
  { apply Hreply; [discriminate|exact Hinv]. }
  destruct (is_method _ "Target.setDiscoverTargets").
  { refine (keeps_seq _ _ keeps_emitTargetCreated (Hreply _ _) w w' os Hinv).
    discriminate. }
  destruct (is_method _ "Target.attachToTarget").
  { refine (keeps_seq _ _ keeps_emitTargetAttached (Hreply _ _) w w' os Hinv).
    discriminate. }
  destruct (is_method _ "Target.activateTarget").
  { apply Hreply; [discriminate|exact Hinv]. }
  destruct (is_method _ "Target.closeTarget").
  { refine (keeps_seq _ _ (keeps_setTimeout CallClose _ _) (Hreply _ _)
              w w' os Hinv); [intros due; exact I|discriminate]. }
  now apply keeps_delaySend.
Qed.

Lemma take_due_In (d : Z) (ts ts' : list (Z * task)) (t : task) :
  take_due d ts = Some (t, ts') ->
  In (d, t) ts /\ (forall x, In x ts' -> In x ts).
Proof.
  revert ts'. induction ts as [|[d' t'] r IH]; simpl; intros ts'; [discriminate|].
  destruct (d' =? d) eqn:E.
  - intros [= <- <-]. apply Z.eqb_eq in E. subst. split; auto.
  - destruct (take_due d r) as [[t0 r0]|]; [|discriminate].
    intros [= <- <-]. destruct (IH r0 eq_refl) as [Hin Hsub].
    split; [now right|]. intros x [<-|Hx]; [now left|right; now apply Hsub].
Qed.

Lemma drop_nth_In {A : Type} (k : nat) (l : list A) (x : A) :
  In x (drop_nth k l) -> In x l.
Proof.
  unfold drop_nth. intros H. apply in_app_or in H as [H|H].
  - rewrite <- (firstn_skipn k l). apply in_or_app. now left.
  - rewrite <- (firstn_skipn (S k) l). apply in_or_app. now right.
Qed.

Lemma keeps_step (i : input) :
  (forall d m p h, fst (sendCommand api d m p h) <> Resolved VUndefined) ->
  sends_commands JSON_parse i = true ->
  keeps_envelopes (step api JSON_parse i).
Proof.
  intros Hobj Hi w w' os Hinv.
  destruct i as [message| |f|f|d|source method params|source|k|dt|]; simpl.
  - unfold send. simpl in Hi.
    destruct (JSON_parse message) as [command|];
      [|intros [= <- <-]; split; [exact Hinv|repeat constructor]].
    destruct (is_CDPCommand_method command Hi) as [name ->].
    destruct (includes targetCommands (VStr name)).
    + now apply keeps_handleTargetCommand.
    + pose proof (Hobj (debugee (this w)) (VStr name)
                    (get_opt command "params") (host w)) as Hr.
      destruct (sendCommand api _ _ _ _) as [r h]. simpl in Hr.
      intros [= <- <-]. split; [|constructor].
      destruct Hinv as [Hts Hjs]. split; [exact Hts|]. simpl.
      apply Forall_app. split; [exact Hjs|]. repeat constructor; assumption.
  - unfold close. destruct (detach api _ _) as [r h].
    intros [= <- <-]. split; [|constructor].
    destruct Hinv as [Hts Hjs]. split; [exact Hts|]. simpl.
    apply Forall_app. split; [exact Hjs|]. repeat constructor.
  - intros [= <- <-]. split; [exact Hinv|constructor].
  - intros [= <- <-]. split; [exact Hinv|constructor].
  - intros [= <- <-]. split; [exact Hinv|constructor].
  - unfold onEvent_listener. destruct (strict_equal _ _).
    + revert Hinv. apply keeps_emit. event_shape.
    + intros [= <- <-]. split; [exact Hinv|constructor].
  - unfold onDetach_listener. destruct (strict_equal _ _).
    + revert Hinv. apply keeps_closeTarget.
    + intros [= <- <-]. split; [exact Hinv|constructor].
  - destruct (nth_error (jobs w) k) as [j|] eqn:E;
      [|intros [= <- <-]; split; [exact Hinv|constructor]].
    destruct Hinv as [Hts Hjs].
    assert (Hj : job_ok j).
    { rewrite Forall_forall in Hjs. apply Hjs. eapply nth_error_In. exact E. }
    assert (Hinv' : invariant (with_jobs (drop_nth k (jobs w)) w)).
    { split; [exact Hts|]. simpl. rewrite Forall_forall in *.
      intros x Hx. apply Hjs. eapply drop_nth_In. exact Hx. }
    revert Hinv'. generalize (with_jobs (drop_nth k (jobs w)) w). intros w1 Hinv'.
    destruct j as [command [result|reason]|[u|reason]]; simpl.
    + destruct Hj as [Hc Hres]. revert Hinv'. apply keeps_delaySend.
      destruct (cleared_error command Hc) as [Hid Herr].
      apply (success_is_response command); [exact Hid|exact Herr|congruence].
    + destruct Hj as [Hc _]. revert Hinv'. apply keeps_delaySend.
      now apply failure_is_response.
    + revert Hinv'. apply keeps_closeTarget.
    + intros [= <- <-]. split; [exact Hinv'|repeat constructor].
  - intros [= <- <-]. split; [exact Hinv|constructor].
  - destruct (earliest (timers w)) as [d|];
      [|intros [= <- <-]; split; [exact Hinv|constructor]].
    destruct (d <=? now w);
      [|intros [= <- <-]; split; [exact Hinv|constructor]].
    destruct (take_due d (timers w)) as [[t ts]|] eqn:E;
      [|intros [= <- <-]; split; [exact Hinv|constructor]].
    destruct (take_due_In _ _ _ _ E) as [Hin Hsub].
    destruct Hinv as [Hts Hjs].
    assert (Ht : timer_ok (d, t)).
    { rewrite Forall_forall in Hts. now apply Hts. }
    assert (Hinv' : invariant (with_timers ts w)).
    { split; [|exact Hjs]. simpl. rewrite Forall_forall in *.
      intros x Hx. apply Hts. now apply Hsub. }
    revert Hinv'. generalize (with_timers ts w). intros w1 Hinv'.
    destruct t as [response|]; simpl.
    + revert Hinv'. apply keeps_emit. right. exact Ht.
    + unfold close. destruct (detach api _ _) as [r h].
      intros [= <- <-]. split; [|constructor].
      destruct Hinv' as [Hts' Hjs']. split; [exact Hts'|]. simpl.
      apply Forall_app. split; [exact Hjs'|]. repeat constructor.
Qed.

Lemma keeps_run (ins : list input) :
  (forall d m p h, fst (sendCommand api d m p h) <> Resolved VUndefined) ->
  forallb (sends_commands JSON_parse) ins = true ->
  keeps_envelopes (run api JSON_parse ins).
Proof.
  intros Hobj. induction ins as [|i r IH]; simpl; intros Hins.
  - intros w w' os Hinv [= <- <-]. split; [exact Hinv|constructor].
  - apply andb_prop in Hins as [Hi Hr].
    apply keeps_seq; [now apply keeps_step|now apply IH].
Qed.

Lemma messages_of_ok (os : list obs) (doc : json) :
  Forall obs_ok os -> In doc (messages_of os) ->
  is_event doc = true \/ is_response doc = true.
Proof.
  intros Hos Hin. unfold messages_of in Hin. apply in_flat_map in Hin as [o [Ho Hd]].
  rewrite Forall_forall in Hos. specialize (Hos o Ho).
  destruct o; simpl in Hd; try contradiction.
  destruct Hd as [<-|[]]. exact Hos.
Qed.

(** C2.  Let the client send Command Envelopes and the facade's
    [sendCommand] return objects, as its type says.  Then, however the
    calls, notifications, settlements and timeouts interleave, every
    message handed to [onmessage] is an Event Envelope (no [id]) or a
    Response Envelope, which has exactly one of [result] and [error];
    and so is every reply still waiting for its timeout, whether it
    answers a forwarded or an emulated command. *)
Theorem delivered_envelopes_well_formed
  (ins : list input) (w0 w : World F) (os : list obs) :
  (forall d m p h, fst (sendCommand api d m p h) <> Resolved VUndefined) ->
  forallb (sends_commands JSON_parse) ins = true ->
  timers w0 = [] -> jobs w0 = [] ->
  run api JSON_parse ins w0 = (w, os) ->
  (forall doc, In doc (messages_of os) ->
     is_event doc = true
     \/ (has_field "id" doc = true /\ one_of_result_error doc = true))
  /\ (forall due response,
        In (due, DeliverResponse response) (timers w) ->
        one_of_result_error (JSON_stringify response) = true).
Proof.
  intros Hobj Hins Ht0 Hj0 Hrun.
  assert (Hinv0 : invariant w0).
  { split; [rewrite Ht0|rewrite Hj0]; constructor. }
  destruct (keeps_run ins Hobj Hins w0 w os Hinv0 Hrun) as [[Hts _] Hos].
  split.
  - intros doc Hin. destruct (messages_of_ok os doc Hos Hin) as [H|H];
      [now left|right]. now apply andb_prop in H.
  - intros due response Hin. rewrite Forall_forall in Hts.
    specialize (Hts _ Hin). unfold timer_ok in Hts. simpl in Hts.
    now apply andb_prop in Hts.
Qed.

(** ** Where the session identifier goes *)

Lemma field_sessionId_reply (command : value) (x y z : value) :
  field "sessionId"
    (JSON_stringify
       (set "result" x (set "result" y (set "error" z (spread command)))))
  = field "sessionId" (JSON_stringify (spread command)).
Proof. now rewrite !field_set_other by discriminate. Qed.

(** C5, as the code has it.  A relayed host event carries the
    transport's session identifier as its [sessionId].  The synthetic
    events have no [sessionId] of their own: [Target.attachedToTarget]
    and [Target.detachedFromTarget] carry the identifier as
    [params.sessionId], [Target.targetCreated] carries the target
    descriptor as [params.targetInfo].  A Response Envelope, forwarded or
    emulated, carries the [sessionId] of the request it answers, and none
    when the request has none. *)
Theorem sessionId_of_outbound_messages (w : World F) (f : fn) :
  onmessage (this w) = Some f ->
  (forall source method params,
     strict_equal (tabId source) (prop (target (this w)) "tabId") = true ->
     exists event,
       step api JSON_parse (HostEvent source method params) w
       = (w, [OnMessage f event])
       /\ field "sessionId" event = to_json (_sessionId (this w)))
  /\ (exists event params,
        _emitTargetAttached w = (w, [OnMessage f event])
        /\ field "sessionId" event = None
        /\ field "params" event = Some params
        /\ field "sessionId" params = to_json (_sessionId (this w)))
  /\ (exists event params,
        _emitTargetDetached w = (w, [OnMessage f event])
        /\ field "sessionId" event = None
        /\ field "params" event = Some params
        /\ field "sessionId" params = to_json (_sessionId (this w)))
  /\ (exists event params,
        _emitTargetCreated w = (w, [OnMessage f event])
        /\ field "sessionId" event = None
        /\ field "params" event = Some params
        /\ field "sessionId" params = None
        /\ field "targetInfo" params = to_json (VObj (target (this w))))
  /\ (forall command r,
        exists response,
          resume (AfterSendCommand command r) w = (paced response w, [])
          /\ field "sessionId" (JSON_stringify response)
             = field "sessionId" (JSON_stringify (spread command)))
  /\ (forall command w' os due response,
        _handleTargetCommand command w = (w', os) ->
        In (due, DeliverResponse response) (timers w') ->
        In (due, DeliverResponse response) (timers w)
        \/ field "sessionId" (JSON_stringify response)
           = field "sessionId" (JSON_stringify (spread command))).
Proof.
  intros Hf. split; [|split; [|split; [|split; [|split]]]].
  - intros source method params Htab.
    destruct (relay_of_own_tab w source method params f Htab Hf)
      as [event [E [_ [_ Hs]]]].
    now exists event.
  - unfold _emitTargetAttached, _emit. rewrite Hf.
    do 2 eexists. split; [reflexivity|].
    split; [now rewrite field_members by distinct_keys|].
    split; [rewrite field_members by distinct_keys; apply to_json_VObj|].
    change (field "sessionId"
              (JSON_stringify [("targetInfo", VObj (target (this w)));
                               ("sessionId", _sessionId (this w));
                               ("waitingForDebugger", VBool false)])
            = to_json (_sessionId (this w))).
    now rewrite field_members by distinct_keys.
  - unfold _emitTargetDetached, _emit. rewrite Hf.
    do 2 eexists. split; [reflexivity|].
    split; [now rewrite field_members by distinct_keys|].
    split; [rewrite field_members by distinct_keys; apply to_json_VObj|].
    change (field "sessionId"
              (JSON_stringify [("targetId", prop (target (this w)) "id");
                               ("sessionId", _sessionId (this w))])
            = to_json (_sessionId (this w))).
    now rewrite field_members by distinct_keys.
  - unfold _emitTargetCreated, _emit. rewrite Hf.
    do 2 eexists. split; [reflexivity|].
    split; [now rewrite field_members by distinct_keys|].
    split; [rewrite field_members by distinct_keys; apply to_json_VObj|].
    split.
    + change (field "sessionId"
                (JSON_stringify [("targetInfo", VObj (target (this w)))]) = None).
      now rewrite field_members by distinct_keys.
    + exact (jlookup_set_same "targetInfo" _ []).
  - intros command [result|reason]; eexists; (split; [reflexivity|]);
      now rewrite !field_set_other by discriminate.
  - intros command w' os due response. unfold _handleTargetCommand.
    repeat match goal with
           | |- context [if is_method ?a ?b then _ else _] =>
               destruct (is_method a b)
           end;
      unfold seq, _emitTargetCreated, _emitTargetAttached, _emit, _delaySend,
        setTimeout;
      rewrite ?Hf; simpl; intros [= <- <-]; simpl; intros Hin;
      (apply in_app_or in Hin as [Hin|Hin];
       [ first [ now left
               | apply in_app_or in Hin as [Hin|Hin];
                 [now left|destruct Hin as [Hin|[]]; discriminate] ]
       | destruct Hin as [Hin|[]]; injection Hin as _ <-; right;
         now rewrite !jlookup_set_other by discriminate ]).
Qed.

(** ** Teardown *)

Lemma closeTarget_calls (w : World F) (f g : fn) :
  onmessage (this w) = Some f -> onclose (this w) = Some g ->
  exists event params,
    _closeTarget w = (w, [OnMessage f event; OnClose g])
    /\ field "method" event = Some (JStr "Target.detachedFromTarget")
    /\ field "params" event = Some params
    /\ field "targetId" params = to_json (prop (target (this w)) "id")
    /\ field "sessionId" params = to_json (_sessionId (this w)).
Proof.
  intros Hf Hg. unfold _closeTarget, seq, _emitTargetDetached, _emit.
  rewrite Hf, Hg. do 2 eexists. split; [reflexivity|].
  split; [reflexivity|].
  split; [rewrite field_members by distinct_keys; apply to_json_VObj|].
  split.
  - change (field "targetId"
              (JSON_stringify [("targetId", prop (target (this w)) "id");
                               ("sessionId", _sessionId (this w))])
            = to_json (prop (target (this w)) "id")).
    now rewrite field_members by distinct_keys.
  - change (field "sessionId"
              (JSON_stringify [("targetId", prop (target (this w)) "id");
                               ("sessionId", _sessionId (this w))])
            = to_json (_sessionId (this w))).
    now rewrite field_members by distinct_keys.
Qed.

(** C7, as the code has it.  With both callbacks set, a detach
    notification of the host for the transport's tab hands over exactly
    one [Target.detachedFromTarget] event and then calls [onclose]
    exactly once, leaving the world as it was; a notification for another
    tab does nothing.  The transport keeps no record of this: a second
    notification does the same again, and so does every [close] whose
    [detach] succeeded, while a [close] whose [detach] failed hands over
    nothing. *)
Theorem teardown_on_every_detach (w : World F) (f g : fn) :
  onmessage (this w) = Some f -> onclose (this w) = Some g ->
  exists event params,
    field "method" event = Some (JStr "Target.detachedFromTarget")
    /\ field "params" event = Some params
    /\ field "targetId" params = to_json (prop (target (this w)) "id")
    /\ field "sessionId" params = to_json (_sessionId (this w))
    /\ (forall source,
          strict_equal (tabId source) (prop (target (this w)) "tabId") = true ->
          step api JSON_parse (HostDetach source) w
          = (w, [OnMessage f event; OnClose g])
          /\ run api JSON_parse [HostDetach source; HostDetach source] w
             = (w, [OnMessage f event; OnClose g; OnMessage f event; OnClose g]))
    /\ (forall source,
          strict_equal (tabId source) (prop (target (this w)) "tabId") = false ->
          step api JSON_parse (HostDetach source) w = (w, []))
    /\ (forall u,
          resume (AfterDetach (Resolved u)) w
          = (w, [OnMessage f event; OnClose g]))
    /\ (forall reason,
          resume (AfterDetach (Rejected reason)) w
          = (w, [CloseRejected (Reason reason)])).
Proof.
  intros Hf Hg.
  destruct (closeTarget_calls w f g Hf Hg) as [event [params [E [Hm [Hp [Ht Hs]]]]]].
  exists event, params. repeat (split; [assumption|]).
  split; [|split; [|split]].
  - intros source Htab.
    assert (Hstep : step api JSON_parse (HostDetach source) w
                    = (w, [OnMessage f event; OnClose g])).
    { simpl. unfold onDetach_listener. now rewrite Htab. }
    split; [exact Hstep|].
    cbn [run]. unfold seq at 1. rewrite Hstep.
    unfold seq. rewrite Hstep. reflexivity.
  - intros source Htab. simpl. unfold onDetach_listener. now rewrite Htab.
  - intros u. exact E.
  - intros reason. reflexivity.
Qed.

(** C8, as the code has it.  [close] calls the facade's [detach] and
    suspends.  If the call fails, the promise of [close] rejects with the
    facade's reason and nothing else happens: no teardown, nothing is
    swallowed.  If it succeeds, teardown runs.  The timeout set by
    [Target.closeTarget] is that same [close]. *)
Theorem close_propagates_detach_failure (w : World F) :
  let call := detach api (debugee (this w)) (host w) in
  close api w
  = (with_jobs (jobs w ++ [AfterDetach (fst call)]) (with_host (snd call) w), [])
  /\ (forall reason (w1 : World F),
        resume (AfterDetach (Rejected reason)) w1
        = (w1, [CloseRejected (Reason reason)]))
  /\ (forall u (w1 : World F),
        resume (AfterDetach (Resolved u)) w1 = _closeTarget w1)
  /\ fire api CallClose = close api.
Proof.
  intros call. split; [|split; [|split]]; try reflexivity.
  unfold close. subst call. now destruct (detach api _ _).
Qed.

End Protocol.

(** For a target list whose [attached] flags are booleans, the filter of
    [_getTargetInfo] keeps the entries that are attached with the tab's
    id. *)
Lemma attached_to_spec (n : Z) (t : props) (b : bool) :
  prop t "attached" = VBool b ->
  attached_to {| tabId := VNum n |} t = true
  <-> b = true /\ prop t "tabId" = VNum n.
Proof.
  intros Hb. unfold attached_to. rewrite Hb. simpl. split.
  - intros H. apply andb_prop in H as [-> H]. split; [reflexivity|].
    destruct (prop t "tabId"); try discriminate.
    apply Z.eqb_eq in H. now subst.
  - intros [-> ->]. simpl. apply Z.eqb_refl.
Qed.

(** The target, the session identifier and the debuggee of a transport
    never change. *)
Lemma step_keeps_target {F : Type} (api : DebuggerApi F)
  (parse : string -> option value) (i : input) (w : World F) :
  let t := this (fst (step api parse i w)) in
  target t = target (this w)
  /\ _sessionId t = _sessionId (this w)
  /\ debugee t = debugee (this w).
Proof.
  destruct i; simpl;
    unfold send, close, onEvent_listener, onDetach_listener, resume, fire,
      _handleTargetCommand, _closeTarget, seq, _emitTargetCreated,
      _emitTargetAttached, _emitTargetDetached, _emit, _delaySend, setTimeout,
      close;
    repeat match goal with
           | |- context [match ?x with _ => _ end] =>
               lazymatch x with
               | context [match _ with _ => _ end] => fail
               | _ => destruct x; simpl
               end
           end;
    repeat split; reflexivity.
Qed.

(** ** The scenarios, on the example host *)

Example create_tab7 :
  create Demo.api 7 None true NativeFunction Demo.fresh
  = (inr (new_Transport Demo.target7), Demo.host7, NativeFunction).
Proof. reflexivity. Qed.

Example create_denied :
  create Demo.api 9 None true NativeFunction Demo.fresh
  = (inl (Reason (Demo.new_Error "Cannot attach to this target.")),
     {| Demo.attached_tabs := [];
        Demo.calls := [Demo.CallAttach (Demo.tab 9) "1.3"] |},
     NativeFunction).
Proof. reflexivity. Qed.

Example getBrowserContexts_text :
  map render
    (messages_of
       (snd (run Demo.api Demo.parse
               [Send Demo.getBrowserContexts; Elapse 40; Expire] Demo.world7)))
  = [Demo.js "{'id':1,'method':'Target.getBrowserContexts','params':{},'result':{'browserContextIds':[]}}"].
Proof. vm_compute. reflexivity. Qed.

Example navigate_text :
  map render
    (messages_of
       (snd (run Demo.api Demo.parse
               [Send Demo.navigate; Settle 0; Elapse 40; Expire] Demo.world7)))
  = [Demo.js "{'id':2,'method':'Page.navigate','params':{'url':'https://example.com'},'result':{'frameId':'F1'}}"].
Proof. vm_compute. reflexivity. Qed.

Example pageClose_text :
  map render
    (messages_of
       (snd (run Demo.api Demo.parse
               [Send Demo.pageClose; Settle 0; Elapse 40; Expire] Demo.world7)))
  = [Demo.js "{'id':3,'method':'Page.close','params':{},'error':{'message':'No tab with given id'}}"].
Proof. vm_compute. reflexivity. Qed.

Example pageCrash_text :
  map render
    (messages_of
       (snd (run Demo.api Demo.parse
               [Send Demo.pageCrash; Settle 0; Elapse 40; Expire] Demo.world7)))
  = [Demo.js "{'id':8,'method':'Page.crash','params':{},'error':{}}"].
Proof. vm_compute. reflexivity. Qed.

Example pageEnable_text :
  map render
    (messages_of
       (snd (run Demo.api Demo.parse
               [Send Demo.pageEnable; Settle 0; Elapse 40; Expire] Demo.world7)))
  = [Demo.js "{'id':9,'method':'Page.enable','params':{},'sessionId':'A1','result':{}}"].
Proof. vm_compute. reflexivity. Qed.

Example setDiscoverTargets_text :
  map render
    (messages_of
       (snd (run Demo.api Demo.parse
               [Send Demo.setDiscoverTargets; Elapse 40; Expire] Demo.world7)))
  = [Demo.js "{'method':'Target.targetCreated','params':{'targetInfo':{'attached':true,'id':'A1','tabId':7,'title':'','type':'page','url':'about:blank','targetId':'A1','canAccessOpener':false}}}";
     Demo.js "{'id':4,'method':'Target.setDiscoverTargets','params':{'discover':true},'result':null}"].
Proof. vm_compute. reflexivity. Qed.

Example host_event_text :
  map render
    (messages_of
       (snd (run Demo.api Demo.parse
               [HostEvent (Demo.tab 7) "Page.loadEventFired"
                  (VObj [("timestamp", VNum 1)]);
                HostEvent (Demo.tab 8) "Page.loadEventFired"
                  (VObj [("timestamp", VNum 2)])]
               Demo.world7)))
  = [Demo.js "{'method':'Page.loadEventFired','params':{'timestamp':1},'sessionId':'A1'}"].
Proof. vm_compute. reflexivity. Qed.

(** Outside the interfaces.  A message that is not a [CDPCommand] because
    it has a [result] of its own keeps it in the reply to a failed call,
    next to [error]; and had the facade resolved to [undefined] against
    its type, the reply would have neither. *)
Example stray_result_is_kept :
  is_CDPCommand
    (VObj [("id", VNum 10); ("method", VStr "Page.close"); ("params", VObj []);
           ("result", VNum 0)]) = false
  /\ map render
       (messages_of
          (snd (run Demo.api Demo.parse
                  [Send Demo.strayResult; Settle 0; Elapse 40; Expire]
                  Demo.world7)))
     = [Demo.js "{'id':10,'method':'Page.close','params':{},'result':0,'error':{'message':'No tab with given id'}}"].
Proof. split; vm_compute; reflexivity. Qed.

Example undefined_result_is_left_out :
  snd (fire Demo.api
         (DeliverResponse
            (set "result" VUndefined
               (set "error" VUndefined
                  (spread (Demo.command 2 "Page.navigate" (VObj []))))))
         Demo.world7)
  = [OnMessage 1%nat
       (JObj [("id", JNum 2); ("method", JStr "Page.navigate");
              ("params", JObj [])])].
Proof. reflexivity. Qed.

(** A reply that was scheduled later with a shorter delay overtakes. *)
Example shorter_delay_overtakes :
  map render
    (messages_of
       (snd (run Demo.api Demo.parse
               [Send Demo.getBrowserContexts; Elapse 35; SetDelay 1;
                Send Demo.activateTarget; Elapse 5; Expire; Expire]
               Demo.world7)))
  = [Demo.js "{'id':6,'method':'Target.activateTarget','params':{'targetId':'A1'},'result':null}";
     Demo.js "{'id':1,'method':'Target.getBrowserContexts','params':{},'result':{'browserContextIds':[]}}"].
Proof. vm_compute. reflexivity. Qed.

Lemma demo_sendCommand_object (d : Debuggee) (m p : value) (h : Demo.Host) :
  fst (sendCommand Demo.api d m p h) <> Resolved VUndefined.
Proof.
  simpl. unfold Demo.demo_sendCommand.
  repeat match goal with
         | |- context [if ?b then _ else _] => destruct b
         end; simpl; discriminate.
Qed.

(** ** The properties at concrete inputs *)

Lemma forwarded_command_response_witness :
  (Demo.parse Demo.pageClose = Some (Demo.command 3 "Page.close" (VObj []))
   /\ is_CDPCommand (Demo.command 3 "Page.close" (VObj [])) = true
   /\ includes targetCommands (VStr "Page.close") = false)
  /\ send Demo.api Demo.parse Demo.pageClose Demo.world7
     = (with_jobs
          [AfterSendCommand (Demo.command 3 "Page.close" (VObj []))
             (Rejected (Demo.new_Error "No tab with given id"))]
          (with_host
             (Demo.logged
                (Demo.CallSendCommand (Demo.tab 7) (VStr "Page.close") (VObj []))
                [7] Demo.host7)
             Demo.world7), [])
  /\ exists response error,
       resume (AfterSendCommand (Demo.command 3 "Page.close" (VObj []))
                 (Rejected (Demo.new_Error "No tab with given id")))
         Demo.world7
       = (paced response Demo.world7, [])
       /\ field "error" (JSON_stringify response) = Some error
       /\ field "message" error = Some (JStr "No tab with given id")
       /\ field "result" (JSON_stringify response) = None.
Proof.
  split; [repeat split; reflexivity|].
  destruct (forwarded_command_response Demo.api Demo.parse Demo.world7
              Demo.pageClose (Demo.command 3 "Page.close" (VObj []))
              (VStr "Page.close") eq_refl eq_refl eq_refl eq_refl)
    as [Hsend [_ [Hfail _]]].
  split; [exact Hsend|].
  destruct (Hfail (Demo.new_Error "No tab with given id") Demo.world7)
    as [response [error [E [_ [He [Hm Hr]]]]]].
  exists response, error. repeat split; assumption.
Defined.

Lemma delivered_envelopes_well_formed_witness :
  forallb (sends_commands Demo.parse) Demo.busy_session = true
  /\ List.length (messages_of
                    (snd (run Demo.api Demo.parse Demo.busy_session Demo.world7)))
     = 11%nat
  /\ (forall doc,
        In doc (messages_of
                  (snd (run Demo.api Demo.parse Demo.busy_session Demo.world7))) ->
        is_event doc = true
        \/ (has_field "id" doc = true /\ one_of_result_error doc = true)).
Proof.
  split; [reflexivity|]. split; [reflexivity|].
  destruct (run Demo.api Demo.parse Demo.busy_session Demo.world7) as [w os] eqn:E.
  exact (proj1 (delivered_envelopes_well_formed Demo.api Demo.parse Demo.busy_session
                  Demo.world7 w os demo_sendCommand_object eq_refl eq_refl
                  eq_refl E)).
Defined.

Lemma emulated_target_commands_witness :
  (Demo.parse Demo.attachToTarget
   = Some (Demo.command 5 "Target.attachToTarget"
             (VObj [("targetId", VStr "A1"); ("flatten", VBool true)]))
   /\ onmessage (this Demo.world7) = Some 1%nat)
  /\ exists response result event params,
       send Demo.api Demo.parse Demo.attachToTarget Demo.world7
       = (paced response Demo.world7, [OnMessage 1%nat event])
       /\ field "result" (JSON_stringify response) = Some result
       /\ field "sessionId" result = Some (JStr "A1")
       /\ field "method" event = Some (JStr "Target.attachedToTarget")
       /\ field "params" event = Some params
       /\ field "waitingForDebugger" params = Some (JBool false).
Proof.
  split; [split; reflexivity|].
  destruct (emulated_target_commands Demo.api Demo.parse Demo.world7
              Demo.attachToTarget _ 1%nat eq_refl eq_refl)
    as [_ [Hattach _]].
  destruct (Hattach eq_refl)
    as [response [result [event [params [E [_ [Hr [Hs [Hm [Hp Hw]]]]]]]]]].
  exists response, result, event, params. repeat split; assumption.
Defined.

Lemma setDiscoverTargets_reply_and_event_witness :
  (Demo.parse Demo.setDiscoverTargets
   = Some (Demo.command 4 "Target.setDiscoverTargets"
             (VObj [("discover", VBool true)]))
   /\ onmessage (this Demo.world7) = Some 1%nat)
  /\ exists response event params,
       send Demo.api Demo.parse Demo.setDiscoverTargets Demo.world7
       = (paced response Demo.world7, [OnMessage 1%nat event])
       /\ field "result" (JSON_stringify response) = Some JNull
       /\ field "method" event = Some (JStr "Target.targetCreated")
       /\ field "params" event = Some params
       /\ field "targetInfo" params = to_json (VObj Demo.target7).
Proof.
  split; [split; reflexivity|].
  destruct (setDiscoverTargets_reply_and_event Demo.api Demo.parse Demo.world7
              Demo.setDiscoverTargets _ 1%nat eq_refl eq_refl eq_refl)
    as [response [event [params [E [_ [Hr [_ [Hm [Hp [Ht _]]]]]]]]]].
  exists response, event, params. repeat split; assumption.
Defined.

Lemma host_event_relay_witness :
  (strict_equal (tabId (Demo.tab 7)) (prop (target (this Demo.world7)) "tabId") = true
   /\ strict_equal (tabId (Demo.tab 8)) (prop (target (this Demo.world7)) "tabId")
      = false)
  /\ (exists event,
        step Demo.api Demo.parse
          (HostEvent (Demo.tab 7) "Page.loadEventFired" (VObj [])) Demo.world7
        = (Demo.world7, [OnMessage 1%nat event])
        /\ field "method" event = Some (JStr "Page.loadEventFired")
        /\ field "params" event = Some (JObj [])
        /\ field "sessionId" event = Some (JStr "A1"))
  /\ step Demo.api Demo.parse
       (HostEvent (Demo.tab 8) "Page.loadEventFired" (VObj [])) Demo.world7
     = (Demo.world7, []).
Proof.
  split; [split; reflexivity|]. split.
  - exact (proj1 (host_event_relay Demo.api Demo.parse Demo.world7 (Demo.tab 7)
                    "Page.loadEventFired" (VObj [])) eq_refl 1%nat eq_refl).
  - exact (proj2 (host_event_relay Demo.api Demo.parse Demo.world7 (Demo.tab 8)
                    "Page.loadEventFired" (VObj [])) eq_refl).
Defined.

Lemma unset_onmessage_drops_witness :
  onmessage (this Demo.silent7) = None
  /\ (forall event, _emit event Demo.silent7 = (Demo.silent7, []))
  /\ step Demo.api Demo.parse
       (HostEvent (Demo.tab 7) "Page.loadEventFired" (VObj [])) Demo.silent7
     = (Demo.silent7, []).
Proof.
  split; [reflexivity|].
  destruct (unset_onmessage_drops Demo.api Demo.parse Demo.silent7 eq_refl)
    as [He [_ [_ [Hh _]]]].
  split; [exact He|apply Hh].
Defined.

Lemma create_outcomes_witness :
  (attach Demo.api (Demo.tab 7) "1.3" Demo.fresh
   = (Resolved tt,
      Demo.logged (Demo.CallAttach (Demo.tab 7) "1.3") [7] Demo.fresh)
   /\ attached_to (Demo.tab 7) (Demo.tab_info 8 "B2" Demo.host7) = false
   /\ attached_to (Demo.tab 7) (Demo.tab_info 7 "A1" Demo.host7) = true)
  /\ exists transport,
       create Demo.api 7 None true NativeFunction Demo.fresh
       = (inr transport, Demo.host7, NativeFunction)
       /\ _sessionId transport = VStr "A1"
       /\ prop (target transport) "canAccessOpener" = VBool false
       /\ prop (target transport) "tabId" = VNum 7.
Proof.
  split; [repeat split; reflexivity|].
  destruct (create_outcomes Demo.api 7 None true NativeFunction Demo.fresh)
    as [_ [_ H]].
  refine (H tt _ Demo.host7 [Demo.tab_info 8 "B2" _] (Demo.tab_info 7 "A1" _) []
            eq_refl eq_refl _ eq_refl).
  intros x [<-|[]]. reflexivity.
Defined.

Lemma sessionId_of_outbound_messages_witness :
  onmessage (this Demo.world7) = Some 1%nat
  /\ (exists event params,
        _emitTargetCreated Demo.world7 = (Demo.world7, [OnMessage 1%nat event])
        /\ field "sessionId" event = None
        /\ field "params" event = Some params
        /\ field "sessionId" params = None
        /\ field "targetInfo" params = to_json (VObj Demo.target7)).
Proof.
  split; [reflexivity|].
  exact (proj1 (proj2 (proj2 (proj2
           (sessionId_of_outbound_messages Demo.api Demo.parse Demo.world7 1%nat
              eq_refl))))).
Defined.

Lemma teardown_on_every_detach_witness :
  (onmessage (this Demo.world7) = Some 1%nat
   /\ onclose (this Demo.world7) = Some 2%nat)
  /\ exists event,
       field "method" event = Some (JStr "Target.detachedFromTarget")
       /\ run Demo.api Demo.parse
            [HostDetach (Demo.tab 7); HostDetach (Demo.tab 7)] Demo.world7
          = (Demo.world7,
             [OnMessage 1%nat event; OnClose 2%nat;
              OnMessage 1%nat event; OnClose 2%nat]).
Proof.
  split; [split; reflexivity|].
  destruct (teardown_on_every_detach Demo.api Demo.parse Demo.world7 1%nat 2%nat
              eq_refl eq_refl)
    as [event [params [Hm [_ [_ [_ [Hd _]]]]]]].
  exists event. split; [exact Hm|]. exact (proj2 (Hd (Demo.tab 7) eq_refl)).
Defined.

(** ** What the specification states and the code does not do *)

(** C5 fails as stated: the [Target.targetCreated] event and the reply to
    [Target.setDiscoverTargets] reach the client without a [sessionId],
    while the transport's session identifier is [A1]. *)
Lemma sessionId_not_on_every_message :
  _sessionId (this Demo.world7) = VStr "A1"
  /\ map (field "sessionId")
       (messages_of
          (snd (run Demo.api Demo.parse
                  [Send Demo.setDiscoverTargets; Elapse 40; Expire]
                  Demo.world7)))
     = [None; None]
  /\ ~ (forall doc,
          In doc (messages_of
                    (snd (run Demo.api Demo.parse
                            [Send Demo.setDiscoverTargets; Elapse 40; Expire]
                            Demo.world7))) ->
          field "sessionId" doc = to_json (_sessionId (this Demo.world7))).
Proof.
  split; [reflexivity|]. split; [reflexivity|].
  intros H.
  specialize (H _ (or_introl eq_refl)). discriminate H.
Qed.

(** C7 fails as stated.  With a facade whose [detach] succeeds again,
    closing the transport after [Target.closeTarget] emits
    [Target.detachedFromTarget] a second time and calls [onclose] a
    second time; and two detach notifications for the tab call [onclose]
    twice whatever the facade. *)
Lemma close_after_closeTarget_emits_again :
  (let os := snd (run Demo.lenient Demo.parse
                    [Send Demo.closeTarget; Elapse 40; Expire; Expire;
                     Settle 0; Close; Settle 0] Demo.world7) in
   events_named "Target.detachedFromTarget" os = 2%nat
   /\ closes_of os = 2%nat)
  /\ (let os := snd (run Demo.api Demo.parse
                       [HostDetach (Demo.tab 7); HostDetach (Demo.tab 7)]
                       Demo.world7) in
      events_named "Target.detachedFromTarget" os = 2%nat
      /\ closes_of os = 2%nat
      /\ ~ (closes_of os <= 1)%nat).
Proof.
  split; [split; reflexivity|].
  split; [reflexivity|]. split; [reflexivity|].
  vm_compute. intros H. inversion H as [|? H']. inversion H'.
Qed.

(** C8 fails as stated: on a host that refuses to detach a tab that is
    not attached, the second [close] rejects with the host's error, and
    runs no teardown. *)
Lemma second_close_rejects :
  snd (run Demo.api Demo.parse [Close; Settle 0; Close; Settle 0] Demo.world7)
  = [OnMessage 1%nat Demo.detached7; OnClose 2%nat;
     CloseRejected (Reason (Demo.new_Error "Debugger is not attached to the tab."))].
Proof. reflexivity. Qed.

(** * Further properties of the transport *)

Section Behaviour.

Context {F : Type}.
Variable api : DebuggerApi F.
Variable JSON_parse : string -> option value.

Ltac unfold_step :=
  unfold send, close, onEvent_listener, onDetach_listener, resume, fire,
    _handleTargetCommand, _closeTarget, seq, _emitTargetCreated,
    _emitTargetAttached, _emitTargetDetached, _emit, _delaySend, setTimeout,
    close.

Ltac split_cases :=
  repeat match goal with
         | |- context [match ?x with _ => _ end] =>
             lazymatch x with
             | context [match _ with _ => _ end] => fail
             | _ => destruct x eqn:?; simpl
             end
         end.

(** ** What never changes *)

Lemma run_keeps_identity (ins : list input) (w : World F) :
  let t := this (fst (run api JSON_parse ins w)) in
  target t = target (this w)
  /\ _sessionId t = _sessionId (this w)
  /\ debugee t = debugee (this w).
Proof.
  revert w. induction ins as [|i r IH]; intros w; [now repeat split|].
  cbn [run]. unfold seq.
  pose proof (step_keeps_target api JSON_parse i w) as Hs.
  destruct (step api JSON_parse i w) as [w1 o1]. simpl in Hs.
  specialize (IH w1).
  destruct (run api JSON_parse r w1) as [w2 o2]. simpl in IH |- *.
  destruct Hs as [H1 [H2 H3]], IH as [K1 [K2 K3]].
  repeat split; congruence.
Qed.

(** X1.  Whatever happens to a transport, its target descriptor, its
    session identifier and its debuggee stay the ones it was built
    with. *)
Theorem identity_is_fixed (ins : list input) (w : World F) :
  let t := this (fst (run api JSON_parse ins w)) in
  target t = target (this w)
  /\ _sessionId t = _sessionId (this w)
  /\ debugee t = debugee (this w).
Proof.
  revert w. induction ins as [|i r IH]; intros w; [now repeat split|].
  cbn [run]. unfold seq.
  pose proof (step_keeps_target api JSON_parse i w) as Hs.
  destruct (step api JSON_parse i w) as [w1 o1]. simpl in Hs.
  specialize (IH w1).
  destruct (run api JSON_parse r w1) as [w2 o2]. simpl in IH |- *.
  destruct Hs as [H1 [H2 H3]], IH as [K1 [K2 K3]].
  repeat split; congruence.
Qed.

(** X2.  Notifications of the host about other tabs, however many, are
    ignored: nothing is observed and the world stays as it is. *)
Theorem other_tabs_ignored (ins : list input) (w : World F) :
  forallb (from_other_tab w) ins = true ->
  run api JSON_parse ins w = (w, []).
Proof.
  induction ins as [|i r IH]; intros H; [reflexivity|].
  simpl in H. apply andb_prop in H as [Hi Hr].
  assert (Hstep : step api JSON_parse i w = (w, [])).
  { destruct i; try discriminate; simpl in Hi |- *;
      apply negb_true_iff in Hi;
      unfold onEvent_listener, onDetach_listener; now rewrite Hi. }
  cbn [run]. unfold seq. rewrite Hstep, (IH Hr). reflexivity.
Qed.

(** ** Rejections and the facade *)

Lemma step_rejects (i : input) (w : World F) (e : exn) :
  In (SendRejected e) (snd (step api JSON_parse i w)) ->
  exists message,
    i = Send message
    /\ ((JSON_parse message = None /\ e = SyntaxError)
        \/ (exists command,
              JSON_parse message = Some command
              /\ get command "method" = None /\ e = TypeError)).
Proof.
  destruct i as [message| |f|f|d|source method params|source|k|dt|]; simpl;
    unfold_step; split_cases; simpl; intros H;
    repeat (destruct H as [H|H]; try discriminate); try contradiction;
    injection H as <-; exists message; split; try reflexivity.
  - right. eexists. repeat split; eassumption.
  - now left.
Qed.

(** X3.  The promise of [send] rejects for a malformed message only:
    with a SyntaxError when [JSON.parse] throws, with a TypeError when the
    message is [null]; in both cases nothing else happens.  No other
    input, and no failure of the facade, ever makes it reject. *)
Theorem send_rejects_only_malformed (w : World F) :
  (forall message,
     JSON_parse message = None ->
     send api JSON_parse message w = (w, [SendRejected SyntaxError]))
  /\ (forall message command,
        JSON_parse message = Some command -> get command "method" = None ->
        send api JSON_parse message w = (w, [SendRejected TypeError]))
  /\ (forall ins e,
        In (SendRejected e) (snd (run api JSON_parse ins w)) ->
        exists message,
          In (Send message) ins
          /\ ((JSON_parse message = None /\ e = SyntaxError)
              \/ (exists command,
                    JSON_parse message = Some command
                    /\ get command "method" = None /\ e = TypeError))).
Proof.
  split; [|split].
  - intros message H. unfold send. now rewrite H.
  - intros message command H Hm. unfold send. now rewrite H, Hm.
  - intros ins. revert w. induction ins as [|i r IH]; intros w e; [intros []|].
    cbn [run]. unfold seq.
    pose proof (step_rejects i w e) as Hs.
    destruct (step api JSON_parse i w) as [w1 o1]. simpl in Hs.
    specialize (IH w1 e).
    destruct (run api JSON_parse r w1) as [w2 o2]. simpl in IH |- *.
    intros Hin. apply in_app_or in Hin as [Hin|Hin].
    + destruct (Hs Hin) as [message [-> Hm]]. exists message. split; [now left|exact Hm].
    + destruct (IH Hin) as [message [Hm Hc]]. exists message. split; [now right|exact Hc].
Qed.

Lemma step_keeps_host (i : input) (w : World F) :
  may_call_facade i = false -> host (fst (step api JSON_parse i w)) = host w.
Proof.
  destruct i as [message| |f|f|d|source method params|source|k|dt|];
    try discriminate; intros _; simpl; unfold_step; split_cases; reflexivity.
Qed.

(** X4.  The facade is called by a forwarded [send], by [close] and by
    the timeout of [Target.closeTarget], and by nothing else: an emulated
    command leaves the host and the suspended calls as they are, and so
    does every notification, settlement, assignment and lapse of time;
    a timeout does unless it is the one that calls [close]. *)
Theorem facade_called_by_send_and_close_only (w : World F) :
  (forall message command name,
     JSON_parse message = Some command ->
     get command "method" = Some (VStr name) ->
     In name targetCommands ->
     host (fst (send api JSON_parse message w)) = host w
     /\ jobs (fst (send api JSON_parse message w)) = jobs w)
  /\ (forall i, may_call_facade i = false ->
        host (fst (step api JSON_parse i w)) = host w)
  /\ ((forall due, ~ In (due, CallClose) (timers w)) ->
      host (fst (step api JSON_parse Expire w)) = host w
      /\ jobs (fst (step api JSON_parse Expire w)) = jobs w).
Proof.
  split; [|split].
  - intros message command name Hp Hm Hin.
    destruct (send_emulated api JSON_parse w message command name Hp Hm Hin)
      as [-> _].
    unfold_step. split_cases; split; reflexivity.
  - intros i Hi. now apply step_keeps_host.
  - intros Hno. simpl.
    destruct (earliest (timers w)) as [d|]; [|now split].
    destruct (d <=? now w); [|now split].
    destruct (take_due d (timers w)) as [[t ts]|] eqn:E; [|now split].
    destruct (take_due_In _ _ _ _ E) as [Hin _].
    destruct t as [response|]; [|now apply Hno in Hin].
    simpl. unfold _emit. simpl. destruct (onmessage (this w)); now split.
Qed.

(** ** Replies *)

Lemma echoes_command_set (command : value) (k : string) (v : value) (ps : props) :
  k = "result" \/ k = "error" ->
  echoes_command command (JSON_stringify ps) ->
  echoes_command command (JSON_stringify (set k v ps)).
Proof.
  intros Hk H k' Hk'. rewrite field_set_other; [now apply H|].
  intros ->. simpl in Hk'.
  destruct Hk as [->| ->];
    repeat (destruct Hk' as [Hk'|Hk']; try discriminate); contradiction.
Qed.

Lemma echoes_command_spread (command : value) :
  echoes_command command (JSON_stringify (spread command)).
Proof. intros k _. reflexivity. Qed.

Lemma events_only_nil : events_only [].
Proof. intros doc []. Qed.

Lemma events_only_event (f : fn) (method : string) (rest : props) :
  ~ In "id" (map fst rest) -> ~ In "result" (map fst rest) ->
  ~ In "error" (map fst rest) -> ~ In "method" (map fst rest) ->
  events_only [OnMessage f (JSON_stringify (("method", VStr method) :: rest))].
Proof.
  intros H1 H2 H3 H4 doc [<-|[]]. now apply event_has_no_id.
Qed.

Lemma events_only_app (o1 o2 : list obs) :
  events_only o1 -> events_only o2 -> events_only (o1 ++ o2).
Proof.
  intros H1 H2 doc Hin. unfold messages_of in Hin.
  rewrite flat_map_app in Hin. apply in_app_or in Hin as [Hin|Hin]; auto.
Qed.

Ltac one_event :=
  first [ apply events_only_nil
        | apply events_only_event; simpl; intuition discriminate ].

(** What [_handleTargetCommand] does, whatever the command: it hands
    over at most one event and sets the timeout of one reply, after the
    timeout of [close] if it set one. *)
Lemma handleTargetCommand_shape (command : value) (w : World F) :
  exists response os,
    (_handleTargetCommand command w = (paced response w, os)
     \/ _handleTargetCommand command w
        = (paced response
             (with_timers
                (timers w ++ [(now w + Z.max 0 (delay (this w)), CallClose)]) w),
           os))
    /\ echoes_command command (JSON_stringify response)
    /\ events_only os
    /\ (List.length os <= 1)%nat.
Proof.
  assert (He : forall x,
             echoes_command command
               (JSON_stringify
                  (set "result" x
                     (set "result" (VObj [])
                        (set "error" VUndefined (spread command)))))).
  { intros x. repeat (apply echoes_command_set; [tauto|]).
    apply echoes_command_spread. }
  unfold _handleTargetCommand.
  destruct (is_method _ "Target.getBrowserContexts").
  { do 2 eexists. split; [left; reflexivity|].
    split; [apply He|]. split; [one_event|simpl; lia]. }
  destruct (is_method _ "Target.setDiscoverTargets").
  { unfold seq, _emitTargetCreated, _emit.
    destruct (onmessage (this w)); do 2 eexists;
      (split; [left; reflexivity|]); (split; [apply He|]);
      (split; [one_event|simpl; lia]). }
  destruct (is_method _ "Target.attachToTarget").
  { unfold seq, _emitTargetAttached, _emit.
    destruct (onmessage (this w)); do 2 eexists;
      (split; [left; reflexivity|]); (split; [apply He|]);
      (split; [one_event|simpl; lia]). }
  destruct (is_method _ "Target.activateTarget").
  { do 2 eexists. split; [left; reflexivity|].
    split; [apply He|]. split; [one_event|simpl; lia]. }
  destruct (is_method _ "Target.closeTarget").
  { do 2 eexists. split; [right; reflexivity|].
    split; [apply He|]. split; [one_event|simpl; lia]. }
  do 2 eexists. split; [left; reflexivity|].
  split; [|split; [one_event|simpl; lia]].
  repeat (apply echoes_command_set; [tauto|]). apply echoes_command_spread.
Qed.

Lemma resume_send_shape (command : value) (r : settled value) (w : World F) :
  exists response,
    resume (AfterSendCommand command r) w = (paced response w, [])
    /\ echoes_command command (JSON_stringify response).
Proof.
  destruct r as [result|reason]; eexists; (split; [reflexivity|]);
    repeat (apply echoes_command_set; [tauto|]); apply echoes_command_spread.
Qed.

Lemma closeTarget_events (w : World F) :
  exists os, _closeTarget w = (w, os) /\ events_only os.
Proof.
  unfold _closeTarget, seq, _emitTargetDetached, _emit.
  destruct (onmessage (this w)), (onclose (this w)); eexists;
    (split; [reflexivity|]);
    first [ apply events_only_nil
          | intros doc [<-|[]]; apply event_has_no_id; simpl; intuition discriminate
          | intros doc [] ].
Qed.

Lemma input_eq_Expire (i : input) : i = Expire \/ i <> Expire.
Proof. destruct i; (now left) || (right; discriminate). Qed.

Lemma replies_only_by_timeout_aux (i : input) (w : World F) :
  i <> Expire -> events_only (snd (step api JSON_parse i w)).
Proof.
  intros Hi.
  destruct i as [message| |f|f|d|source method params|source|k|dt|];
    try contradiction; simpl; try apply events_only_nil.
  - unfold send. destruct (JSON_parse message) as [command|]; [|intros doc []].
    destruct (get command "method") as [m|]; [|intros doc []].
    destruct (includes targetCommands m).
    + destruct (handleTargetCommand_shape command w)
        as [response [os [[E|E] [_ [Hev _]]]]]; now rewrite E.
    + destruct (sendCommand api _ _ _ _). apply events_only_nil.
  - unfold close. destruct (detach api _ _). apply events_only_nil.
  - unfold onEvent_listener, _emit.
    destruct (strict_equal _ _), (onmessage (this w)); simpl; one_event.
  - unfold onDetach_listener. destruct (strict_equal _ _); [|apply events_only_nil].
    destruct (closeTarget_events w) as [os [-> H]]. exact H.
  - destruct (nth_error (jobs w) k) as [[command r|[u|reason]]|];
      [| | |apply events_only_nil].
    + destruct (resume_send_shape command r (with_jobs (drop_nth k (jobs w)) w))
        as [response [-> _]]. apply events_only_nil.
    + simpl. destruct (closeTarget_events (with_jobs (drop_nth k (jobs w)) w))
        as [os [-> H]]. exact H.
    + intros doc [].
Qed.

(** X5.  A reply is handed over by its timeout and by nothing else:
    whatever the delay, also zero or negative, [send] and the other
    inputs hand over events only. *)
Theorem replies_only_by_timeout (i : input) (w : World F) :
  i <> Expire -> events_only (snd (step api JSON_parse i w)).
Proof.
  intros Hi.
  destruct i as [message| |f|f|d|source method params|source|k|dt|];
    try contradiction; simpl; try apply events_only_nil.
  - unfold send. destruct (JSON_parse message) as [command|]; [|intros doc []].
    destruct (get command "method") as [m|]; [|intros doc []].
    destruct (includes targetCommands m).
    + destruct (handleTargetCommand_shape command w)
        as [response [os [[E|E] [_ [Hev _]]]]]; now rewrite E.
    + destruct (sendCommand api _ _ _ _). apply events_only_nil.
  - unfold close. destruct (detach api _ _). apply events_only_nil.
  - unfold onEvent_listener, _emit.
    destruct (strict_equal _ _), (onmessage (this w)); simpl; one_event.
  - unfold onDetach_listener. destruct (strict_equal _ _); [|apply events_only_nil].
    destruct (closeTarget_events w) as [os [-> H]]. exact H.
  - destruct (nth_error (jobs w) k) as [[command r|[u|reason]]|];
      [| | |apply events_only_nil].
    + destruct (resume_send_shape command r (with_jobs (drop_nth k (jobs w)) w))
        as [response [-> _]]. apply events_only_nil.
    + simpl. destruct (closeTarget_events (with_jobs (drop_nth k (jobs w)) w))
        as [os [-> H]]. exact H.
    + intros doc [].
Qed.

Lemma answers_mono (sent more : list input) (doc : json) :
  answers JSON_parse sent doc -> answers JSON_parse (sent ++ more) doc.
Proof.
  intros [message [command [Hin H]]]. exists message, command.
  split; [apply in_or_app; now left|exact H].
Qed.

Lemma pending_answers_mono (sent more : list input) (w w' : World F) :
  pending_answers JSON_parse sent w ->
  (forall x, In x (timers w') -> In x (timers w)) ->
  (forall x, In x (jobs w') -> In x (jobs w)) ->
  pending_answers JSON_parse (sent ++ more) w'.
Proof.
  intros [Ht Hj] Hts Hjs. split.
  - intros due response Hin. apply answers_mono. eapply Ht, Hts, Hin.
  - intros command r Hin. destruct (Hj command r (Hjs _ Hin)) as [message [H1 H2]].
    exists message. split; [apply in_or_app; now left|exact H2].
Qed.

Lemma pending_answers_paced (sent : list input) (response : props) (w : World F) :
  pending_answers JSON_parse sent w ->
  answers JSON_parse sent (JSON_stringify response) ->
  pending_answers JSON_parse sent (paced response w).
Proof.
  intros [Ht Hj] Ha. split; [|exact Hj].
  intros due r Hin. simpl in Hin. apply in_app_or in Hin as [Hin|[Hin|[]]].
  - eapply Ht, Hin.
  - injection Hin as _ <-. exact Ha.
Qed.

Lemma pending_answers_close_timer (sent : list input) (due : Z) (w : World F) :
  pending_answers JSON_parse sent w ->
  pending_answers JSON_parse sent (with_timers (timers w ++ [(due, CallClose)]) w).
Proof.
  intros [Ht Hj]. split; [|exact Hj].
  intros d r Hin. simpl in Hin. apply in_app_or in Hin as [Hin|[Hin|[]]].
  - eapply Ht, Hin.
  - discriminate Hin.
Qed.

Lemma pending_answers_detach_job (sent : list input) (r : settled unit) (h : F)
  (w : World F) :
  pending_answers JSON_parse sent w ->
  pending_answers JSON_parse sent
    (with_jobs (jobs w ++ [AfterDetach r]) (with_host h w)).
Proof.
  intros [Ht Hj]. split; [exact Ht|].
  intros c r' Hin. simpl in Hin. apply in_app_or in Hin as [Hin|[Hin|[]]].
  - eapply Hj, Hin.
  - discriminate Hin.
Qed.

Lemma step_answers (sent : list input) (i : input) (w : World F) :
  pending_answers JSON_parse sent w ->
  pending_answers JSON_parse (sent ++ [i]) (fst (step api JSON_parse i w))
  /\ forall doc,
       In doc (messages_of (snd (step api JSON_parse i w))) ->
       is_event doc = true \/ answers JSON_parse (sent ++ [i]) doc.
Proof.
  intros Hp.
  assert (Hsame : pending_answers JSON_parse (sent ++ [i]) w).
  { apply (pending_answers_mono sent [i] w w Hp); auto. }
  destruct (input_eq_Expire i) as [->|Hi].
  - simpl.
    destruct (earliest (timers w)) as [d|]; [|split; [exact Hsame|intros doc []]].
    destruct (d <=? now w); [|split; [exact Hsame|intros doc []]].
    destruct (take_due d (timers w)) as [[t ts]|] eqn:E;
      [|split; [exact Hsame|intros doc []]].
    destruct (take_due_In _ _ _ _ E) as [Hin Hsub].
    assert (Hp' : pending_answers JSON_parse (sent ++ [Expire]) (with_timers ts w)).
    { apply (pending_answers_mono sent [Expire] w _ Hp); auto. }
    destruct t as [response|]; simpl.
    + unfold _emit. simpl. destruct (onmessage (this w)); simpl;
        (split; [exact Hp'|]); [|intros doc []].
      intros doc [<-|[]]. right. apply answers_mono. eapply (proj1 Hp), Hin.
    + unfold close. simpl. destruct (detach api _ _) as [r h]. simpl.
      split; [|intros doc []].
      now apply (pending_answers_detach_job _ r h (with_timers ts w)).
  - split; [|intros doc Hd; left;
             exact (replies_only_by_timeout_aux i w Hi doc Hd)].
    destruct i as [message| |f|f|d|source method params|source|k|dt|];
      try contradiction; simpl; try exact Hsame.
    + unfold send. destruct (JSON_parse message) as [command|] eqn:Ep;
        [|exact Hsame].
      destruct (get command "method") as [m|]; [|exact Hsame].
      assert (Hans : forall response,
                 echoes_command command (JSON_stringify response) ->
                 answers JSON_parse (sent ++ [Send message])
                   (JSON_stringify response)).
      { intros response He. exists message, command.
        split; [apply in_or_app; right; now left|now split]. }
      destruct (includes targetCommands m).
      * destruct (handleTargetCommand_shape command w)
          as [response [os [[E|E] [He _]]]]; rewrite E; simpl.
        -- apply pending_answers_paced; [exact Hsame|now apply Hans].
        -- apply pending_answers_paced; [|now apply Hans].
           now apply pending_answers_close_timer.
      * destruct (sendCommand api _ _ _ _) as [r h]. simpl.
        destruct Hsame as [Ht Hj]. split; [exact Ht|].
        intros c r' Hin. simpl in Hin. apply in_app_or in Hin as [Hin|[Hin|[]]].
        -- eapply Hj, Hin.
        -- injection Hin as <- _. exists message.
           split; [apply in_or_app; right; now left|exact Ep].
    + unfold close. destruct (detach api _ _) as [r h]. simpl.
      now apply pending_answers_detach_job.
    + unfold onEvent_listener, _emit.
      destruct (strict_equal _ _), (onmessage (this w)); exact Hsame.
    + unfold onDetach_listener. destruct (strict_equal _ _); [|exact Hsame].
      destruct (closeTarget_events w) as [os [-> _]]. exact Hsame.
    + destruct (nth_error (jobs w) k) as [j|] eqn:E; [|exact Hsame].
      assert (Hp' : pending_answers JSON_parse (sent ++ [Settle k])
                      (with_jobs (drop_nth k (jobs w)) w)).
      { apply (pending_answers_mono sent [Settle k] w _ Hp); auto.
        intros x Hx. eapply drop_nth_In, Hx. }
      destruct j as [command r|[u|reason]].
      * destruct (resume_send_shape command r (with_jobs (drop_nth k (jobs w)) w))
          as [response [-> He]]. simpl.
        apply pending_answers_paced; [exact Hp'|].
        destruct (proj2 Hp command r (nth_error_In _ _ E)) as [message [H1 H2]].
        exists message, command.
        split; [apply in_or_app; now left|now split].
      * simpl. destruct (closeTarget_events (with_jobs (drop_nth k (jobs w)) w))
          as [os [-> _]]. exact Hp'.
      * exact Hp'.
Qed.

Lemma run_answers (ins sent : list input) (w : World F) (doc : json) :
  pending_answers JSON_parse sent w ->
  In doc (messages_of (snd (run api JSON_parse ins w))) ->
  is_event doc = true \/ answers JSON_parse (sent ++ ins) doc.
Proof.
  revert sent w. induction ins as [|i r IH]; intros sent w Hp; [intros []|].
  cbn [run]. unfold seq.
  destruct (step_answers sent i w Hp) as [Hp1 Ho1].
  destruct (step api JSON_parse i w) as [w1 o1]. simpl in Hp1, Ho1.
  specialize (IH (sent ++ [i])%list w1 Hp1).
  destruct (run api JSON_parse r w1) as [w2 o2]. simpl in IH |- *.
  replace (sent ++ i :: r)%list with ((sent ++ [i]) ++ r)%list
    by (rewrite <- app_assoc; reflexivity).
  unfold messages_of. rewrite flat_map_app. intros Hin.
  apply in_app_or in Hin as [Hin|Hin].
  - destruct (Ho1 doc Hin) as [H|H]; [now left|right]. now apply answers_mono.
  - now apply IH.
Qed.

(** X6.  The transport makes up no reply: in the life of a transport,
    every message handed to [onmessage] is an event or carries the [id],
    [method], [params] and [sessionId] of a command the client has sent
    before. *)
Theorem replies_answer_requests (ins : list input) (w0 : World F) (doc : json) :
  timers w0 = [] -> jobs w0 = [] ->
  In doc (messages_of (snd (run api JSON_parse ins w0))) ->
  is_event doc = true \/ answers JSON_parse ins doc.
Proof.
  intros Ht Hj.
  apply (run_answers ins [] w0 doc).
  split; [rewrite Ht|rewrite Hj]; intros ? ? [].
Qed.

(** ** One reply for each command *)

Lemma event_is_no_response (doc : json) :
  is_event doc = true -> is_response doc = false.
Proof.
  unfold is_event, is_response. destruct (has_field "id" doc); simpl.
  - rewrite andb_false_r. discriminate.
  - reflexivity.
Qed.

Lemma replies_of_events (os : list obs) : events_only os -> replies_of os = 0%nat.
Proof.
  unfold events_only, replies_of. induction (messages_of os) as [|doc r IH];
    intros H; [reflexivity|].
  simpl. rewrite (event_is_no_response doc) by (apply H; now left).
  apply IH. intros d Hd. apply H. now right.
Qed.

Lemma replies_of_app (o1 o2 : list obs) :
  replies_of (o1 ++ o2) = (replies_of o1 + replies_of o2)%nat.
Proof.
  unfold replies_of, messages_of.
  now rewrite flat_map_app, filter_app, length_app.
Qed.

Lemma count_drop_nth {A : Type} (P : A -> bool) (k : nat) (l : list A) (x : A) :
  nth_error l k = Some x ->
  List.length (filter P l)
  = (List.length (filter P (drop_nth k l)) + if P x then 1 else 0)%nat.
Proof.
  unfold drop_nth. revert k. induction l as [|y r IH]; intros [|k]; simpl;
    try discriminate.
  - intros [= ->]. destruct (P x); simpl; lia.
  - intros H. specialize (IH k H). simpl in IH. destruct (P y); simpl; lia.
Qed.

Lemma count_take_due (P : Z * task -> bool) (d : Z) (ts ts' : list (Z * task))
  (t : task) :
  take_due d ts = Some (t, ts') ->
  List.length (filter P ts)
  = (List.length (filter P ts') + if P (d, t) then 1 else 0)%nat.
Proof.
  revert ts'. induction ts as [|[d' t'] r IH]; simpl; intros ts'; [discriminate|].
  destruct (d' =? d) eqn:E.
  - intros [= <- <-]. apply Z.eqb_eq in E. subst. destruct (P (d, t')); simpl; lia.
  - destruct (take_due d r) as [[t0 r0]|]; [|discriminate].
    intros [= <- <-]. specialize (IH r0 eq_refl). simpl.
    destruct (P (d', t')); simpl; lia.
Qed.

Lemma owed_paced (response : props) (w : World F) :
  owed (paced response w) = S (owed w).
Proof.
  unfold owed, paced. simpl. rewrite filter_app, length_app. simpl. lia.
Qed.

Lemma owed_close_timer (due : Z) (w : World F) :
  owed (with_timers (timers w ++ [(due, CallClose)]) w) = owed w.
Proof.
  unfold owed. simpl. rewrite filter_app, length_app. simpl. lia.
Qed.

Lemma step_accounting (i : input) (w : World F) :
  (forall d m p h, fst (sendCommand api d m p h) <> Resolved VUndefined) ->
  sends_commands JSON_parse i = true ->
  keeps_onmessage i = true ->
  invariant w -> onmessage (this w) <> None ->
  (replies_of (snd (step api JSON_parse i w))
   + owed (fst (step api JSON_parse i w)))%nat
  = (owed w + accepted JSON_parse i)%nat
  /\ onmessage (this (fst (step api JSON_parse i w))) <> None.
Proof.
  intros Hobj Hi Hk Hinv Hon.
  assert (Hquiet : forall (w' : World F) os,
             events_only os -> owed w' = owed w ->
             onmessage (this w') = onmessage (this w) ->
             (replies_of (snd (w', os)) + owed (fst (w', os)))%nat
             = (owed w + 0)%nat
             /\ onmessage (this (fst (w', os))) <> None).
  { intros w' os Hev Ho Hm. cbn [fst snd].
    rewrite (replies_of_events os Hev), Ho, Hm. split; [lia|exact Hon]. }
  destruct i as [message| |[f|]|f|d|source method params|source|k|dt|];
    try discriminate; cbn [step accepted].
  - unfold send. cbn [sends_commands] in Hi.
    destruct (JSON_parse message) as [command|];
      [|now apply Hquiet; [apply events_only_nil| |]].
    destruct (is_CDPCommand_method command Hi) as [name ->].
    destruct (includes targetCommands (VStr name)).
    + destruct (handleTargetCommand_shape command w)
        as [response [os [[E|E] [_ [Hev _]]]]]; rewrite E; cbn [fst snd];
        rewrite (replies_of_events os Hev), owed_paced, ?owed_close_timer;
        (split; [lia|exact Hon]).
    + destruct (sendCommand api _ _ _ _) as [r h]. cbn [fst snd].
      split; [|exact Hon]. unfold owed. simpl.
      rewrite filter_app, length_app. simpl. lia.
  - unfold close. destruct (detach api _ _) as [r h].
    apply Hquiet; [apply events_only_nil| |reflexivity].
    unfold owed. simpl. rewrite filter_app, length_app. simpl. lia.
  - split; [unfold owed; simpl; lia|discriminate].
  - now apply Hquiet; [apply events_only_nil| |].
  - now apply Hquiet; [apply events_only_nil| |].
  - unfold onEvent_listener, _emit. cbv zeta.
    destruct (strict_equal _ _), (onmessage (this w)) as [f|] eqn:Em;
      apply Hquiet; try reflexivity; try exact Em; one_event.
  - unfold onDetach_listener. destruct (strict_equal _ _);
      [|now apply Hquiet; [apply events_only_nil| |]].
    destruct (closeTarget_events w) as [os [-> Hev]]. now apply Hquiet.
  - destruct (nth_error (jobs w) k) as [j|] eqn:E;
      [|now apply Hquiet; [apply events_only_nil| |]].
    assert (Hc : owed w
                 = (owed (with_jobs (drop_nth k (jobs w)) w)
                    + if is_send_job j then 1 else 0)%nat).
    { unfold owed. simpl. rewrite (count_drop_nth is_send_job k (jobs w) j E). lia. }
    destruct j as [command r|[u|reason]]; simpl in Hc.
    + destruct (resume_send_shape command r (with_jobs (drop_nth k (jobs w)) w))
        as [response [-> _]]. cbn [fst snd]. rewrite owed_paced.
      rewrite (replies_of_events [] events_only_nil).
      split; [lia|exact Hon].
    + cbn [resume].
      destruct (closeTarget_events (with_jobs (drop_nth k (jobs w)) w))
        as [os [-> Hev]]. apply Hquiet; [exact Hev|lia|reflexivity].
    + cbn [resume]. unfold observe.
      apply Hquiet; [intros doc []|lia|reflexivity].
  - now apply Hquiet; [apply events_only_nil| |].
  - destruct (earliest (timers w)) as [d|];
      [|now apply Hquiet; [apply events_only_nil| |]].
    destruct (d <=? now w); [|now apply Hquiet; [apply events_only_nil| |]].
    destruct (take_due d (timers w)) as [[t ts]|] eqn:E;
      [|now apply Hquiet; [apply events_only_nil| |]].
    destruct (take_due_In _ _ _ _ E) as [Hin _].
    assert (Hc : owed w
                 = (owed (with_timers ts w)
                    + if is_reply_task (d, t) then 1 else 0)%nat).
    { unfold owed. simpl. rewrite (count_take_due is_reply_task d _ _ _ E). lia. }
    destruct t as [response|]; simpl in Hc; cbn [fire].
    + unfold _emit. cbn [this with_timers].
      destruct (onmessage (this w)) as [f|] eqn:Em; [|contradiction].
      cbn [fst snd]. split; [|simpl; rewrite Em; discriminate].
      assert (Hr : is_response (JSON_stringify response) = true).
      { destruct Hinv as [Hts _]. rewrite Forall_forall in Hts.
        exact (Hts _ Hin). }
      unfold replies_of. cbn [messages_of flat_map app filter].
      rewrite Hr. simpl List.length. lia.
    + unfold close. cbn [this with_timers host debugee].
      destruct (detach api _ _) as [r h].
      apply Hquiet; [apply events_only_nil| |reflexivity].
      unfold owed in *. simpl in *.
      rewrite filter_app, length_app. simpl. lia.
Qed.

Lemma run_accounting (ins : list input) (w : World F) :
  (forall d m p h, fst (sendCommand api d m p h) <> Resolved VUndefined) ->
  forallb (sends_commands JSON_parse) ins = true ->
  forallb keeps_onmessage ins = true ->
  invariant w -> onmessage (this w) <> None ->
  (replies_of (snd (run api JSON_parse ins w))
   + owed (fst (run api JSON_parse ins w)))%nat
  = (owed w + accepted_all JSON_parse ins)%nat.
Proof.
  intros Hobj. revert w. induction ins as [|i r IH]; intros w Hs Hk Hinv Hon.
  - simpl. lia.
  - simpl in Hs, Hk. apply andb_prop in Hs as [Hsi Hsr].
    apply andb_prop in Hk as [Hki Hkr].
    destruct (step_accounting i w Hobj Hsi Hki Hinv Hon) as [Hacc Hon1].
    pose proof (keeps_step api JSON_parse i Hobj Hsi w) as Hkeep.
    cbn [run accepted_all]. unfold seq.
    destruct (step api JSON_parse i w) as [w1 o1]. simpl in Hacc, Hon1.
    destruct (Hkeep w1 o1 Hinv eq_refl) as [Hinv1 _].
    specialize (IH w1 Hsr Hkr Hinv1 Hon1).
    destruct (run api JSON_parse r w1) as [w2 o2]. simpl in IH |- *.
    rewrite replies_of_app. lia.
Qed.

(** X7.  One reply for each command.  Let the client send Command
    Envelopes, keep an [onmessage] set, and let [sendCommand] return
    objects.  Then at every moment the replies handed over so far and the
    replies still owed (waiting for their timeout or for the facade) are
    together as many as the commands sent: none is lost, none is sent
    twice. *)
Theorem one_reply_for_each_command (ins : list input) (w0 : World F) :
  (forall d m p h, fst (sendCommand api d m p h) <> Resolved VUndefined) ->
  forallb (sends_commands JSON_parse) ins = true ->
  forallb keeps_onmessage ins = true ->
  timers w0 = [] -> jobs w0 = [] -> onmessage (this w0) <> None ->
  (replies_of (snd (run api JSON_parse ins w0))
   + owed (fst (run api JSON_parse ins w0)))%nat
  = accepted_all JSON_parse ins.
Proof.
  intros Hobj Hs Hk Ht Hj Hon.
  assert (Hinv : invariant w0).
  { split; [rewrite Ht|rewrite Hj]; constructor. }
  rewrite (run_accounting ins w0 Hobj Hs Hk Hinv Hon).
  unfold owed. rewrite Ht, Hj. reflexivity.
Qed.

(** ** The order of the replies *)

Lemma earliest_In (ts : list (Z * task)) (m : Z) :
  earliest ts = Some m -> exists x, In x ts /\ fst x = m.
Proof.
  revert m. induction ts as [|[d t] r IH]; simpl; intros m; [discriminate|].
  destruct (earliest r) as [m'|].
  - intros [= <-]. destruct (Z.min_spec d m') as [[_ ->]|[_ ->]].
    + exists (d, t). split; [now left|reflexivity].
    + destruct (IH m' eq_refl) as [x [Hx Hf]]. exists x. split; [now right|exact Hf].
  - intros [= <-]. exists (d, t). split; [now left|reflexivity].
Qed.

Lemma sorted_due_head (d : Z) (t : task) (r : list (Z * task)) :
  sorted_due ((d, t) :: r) ->
  earliest ((d, t) :: r) = Some d /\ take_due d ((d, t) :: r) = Some (t, r).
Proof.
  intros [Hle _]. split.
  - simpl. destruct (earliest r) as [m|] eqn:E; [|reflexivity].
    destruct (earliest_In r m E) as [x [Hx <-]].
    specialize (Hle x Hx). simpl in Hle. f_equal. lia.
  - simpl. now rewrite Z.eqb_refl.
Qed.

Lemma sorted_due_snoc (ts : list (Z * task)) (x : Z * task) :
  sorted_due ts -> (forall y, In y ts -> fst y <= fst x) -> sorted_due (ts ++ [x]).
Proof.
  induction ts as [|t r IH]; simpl; intros Hs Hb.
  - split; [intros y []|exact I].
  - destruct Hs as [Hle Hs]. split.
    + intros y Hy. apply in_app_or in Hy as [Hy|[<-|[]]]; [now apply Hle|].
      apply Hb. now left.
    + apply IH; [exact Hs|]. intros y Hy. apply Hb. now right.
Qed.

Lemma orderly_setTimeout (t : task) (w : World F) :
  orderly w ->
  orderly (with_timers (timers w ++ [(now w + Z.max 0 (delay (this w)), t)]) w).
Proof.
  intros [Hs Hb]. split; simpl.
  - apply sorted_due_snoc; [exact Hs|exact Hb].
  - intros x Hx. apply in_app_or in Hx as [Hx|[<-|[]]]; [now apply Hb|].
    simpl. lia.
Qed.

Lemma orderly_same (w w' : World F) :
  orderly w -> timers w' = timers w -> now w <= now w' ->
  delay (this w') = delay (this w) -> orderly w'.
Proof.
  intros [Hs Hb] Ht Hn Hd. unfold orderly. rewrite Ht, Hd.
  split; [exact Hs|]. intros x Hx. specialize (Hb x Hx). lia.
Qed.

Lemma orderly_Expire (w : World F) :
  orderly w ->
  step api JSON_parse Expire w
  = match timers w with
    | [] => (w, [])
    | (d, t) :: r =>
        if d <=? now w then fire api t (with_timers r w) else (w, [])
    end.
Proof.
  intros [Hs _]. simpl. destruct (timers w) as [|[d t] r] eqn:E; [reflexivity|].
  destruct (sorted_due_head d t r Hs) as [-> H2].
  destruct (d <=? now w); [|reflexivity]. now rewrite H2.
Qed.

Lemma orderly_step (i : input) (w : World F) :
  keeps_delay i = true -> orderly w -> orderly (fst (step api JSON_parse i w)).
Proof.
  intros Hk Ho.
  destruct i as [message| |f|f|d|source method params|source|k|dt|];
    try discriminate.
  - cbn [step]. unfold send.
    destruct (JSON_parse message) as [command|]; [|exact Ho].
    destruct (get command "method") as [m|]; [|exact Ho].
    destruct (includes targetCommands m).
    + destruct (handleTargetCommand_shape command w)
        as [response [os [[E|E] _]]]; rewrite E; cbn [fst].
      * now apply (orderly_setTimeout (DeliverResponse response) w).
      * apply (orderly_setTimeout (DeliverResponse response)
                 (with_timers
                    (timers w ++ [(now w + Z.max 0 (delay (this w)), CallClose)])
                    w)).
        now apply (orderly_setTimeout CallClose w).
    + destruct (sendCommand api _ _ _ _) as [r h]. cbn [fst].
      apply (orderly_same w); [exact Ho|reflexivity|simpl; lia|reflexivity].
  - cbn [step]. unfold close. destruct (detach api _ _) as [r h]. cbn [fst].
    apply (orderly_same w); [exact Ho|reflexivity|simpl; lia|reflexivity].
  - apply (orderly_same w); [exact Ho|reflexivity|simpl; lia|reflexivity].
  - apply (orderly_same w); [exact Ho|reflexivity|simpl; lia|reflexivity].
  - cbn [step]. unfold onEvent_listener, _emit. cbv zeta.
    destruct (strict_equal _ _), (onmessage (this w)); exact Ho.
  - cbn [step]. unfold onDetach_listener. destruct (strict_equal _ _); [|exact Ho].
    destruct (closeTarget_events w) as [os [-> _]]. exact Ho.
  - cbn [step]. destruct (nth_error (jobs w) k) as [j|]; [|exact Ho].
    assert (Ho' : orderly (with_jobs (drop_nth k (jobs w)) w)).
    { apply (orderly_same w); [exact Ho|reflexivity|simpl; lia|reflexivity]. }
    destruct j as [command r|[u|reason]].
    + destruct (resume_send_shape command r (with_jobs (drop_nth k (jobs w)) w))
        as [response [-> _]]. cbn [fst].
      now apply (orderly_setTimeout (DeliverResponse response)
                   (with_jobs (drop_nth k (jobs w)) w)).
    + cbn [resume].
      destruct (closeTarget_events (with_jobs (drop_nth k (jobs w)) w))
        as [os [-> _]]. exact Ho'.
    + exact Ho'.
  - apply (orderly_same w); [exact Ho|reflexivity|simpl; lia|reflexivity].
  - rewrite (orderly_Expire w Ho). pose proof Ho as Ho0. destruct Ho as [Hs Hb].
    destruct (timers w) as [|[d t] r] eqn:E; [exact Ho0|].
    destruct (d <=? now w); [|exact Ho0].
    assert (Ho' : orderly (with_timers r w)).
    { split; simpl; [exact (proj2 Hs)|]. intros x Hx. apply Hb. now right. }
    destruct t as [response|]; cbn [fire].
    + unfold _emit. destruct (onmessage (this (with_timers r w))); exact Ho'.
    + unfold close. destruct (detach api _ _) as [r' h]. cbn [fst].
      apply (orderly_same (with_timers r w));
        [exact Ho'|reflexivity|simpl; lia|reflexivity].
Qed.

(** X8.  While the client leaves [delay] alone, the timeouts run in the
    order in which they were set: the pending ones stay sorted by due
    time, and the one that runs is the oldest.  So the replies are handed
    over in the order in which they were scheduled. *)
Theorem oldest_timeout_first (ins : list input) (w0 : World F) :
  timers w0 = [] -> forallb keeps_delay ins = true ->
  let w := fst (run api JSON_parse ins w0) in
  orderly w
  /\ step api JSON_parse Expire w
     = match timers w with
       | [] => (w, [])
       | (d, t) :: r =>
           if d <=? now w then fire api t (with_timers r w) else (w, [])
       end.
Proof.
  intros Ht Hk.
  assert (Ho : orderly (fst (run api JSON_parse ins w0))).
  { assert (H0 : orderly w0).
    { split; rewrite Ht; [exact I|intros x []]. }
    clear Ht. revert w0 H0 Hk.
    induction ins as [|i r IH]; intros w H0 Hk; [exact H0|].
    simpl in Hk. apply andb_prop in Hk as [Hi Hr].
    cbn [run]. unfold seq.
    pose proof (orderly_step i w Hi H0) as H1.
    destruct (step api JSON_parse i w) as [w1 o1]. simpl in H1.
    specialize (IH w1 H1 Hr).
    destruct (run api JSON_parse r w1) as [w2 o2]. exact IH. }
  split; [exact Ho|now apply orderly_Expire].
Qed.

(** ** What [create] leaves behind *)

Lemma filter_head {A : Type} (f : A -> bool) (l r : list A) (x : A) :
  filter f l = x :: r -> In x l /\ f x = true.
Proof.
  intros H. apply filter_In. rewrite H. now left.
Qed.

Lemma create_builds
  (tab : Z) (functionSerializer : option fn) (can_construct : bool)
  (current : FunctionCtor) (h h' : F) (transport : Transport)
  (binding : FunctionCtor) :
  create api tab functionSerializer can_construct current h
  = (inr transport, h', binding) ->
  exists u h1 targets entry,
    attach api {| tabId := VNum tab |} "1.3" h = (Resolved u, h1)
    /\ getTargets api h1 = (Resolved targets, h')
    /\ In entry targets
    /\ attached_to {| tabId := VNum tab |} entry = true
    /\ _sessionId transport = prop entry "id"
    /\ prop (target transport) "targetId" = prop entry "id"
    /\ prop (target transport) "canAccessOpener" = VBool false
    /\ (forall k, k <> "targetId" -> k <> "canAccessOpener" ->
          prop (target transport) k = prop entry k)
    /\ debugee transport = {| tabId := VNum tab |}
    /\ delay transport = 40
    /\ onmessage transport = None
    /\ onclose transport = None.
Proof.
  unfold create, _getTargetInfo.
  destruct (attach api _ _ h) as [[u|reason] h1] eqn:Ea; [|discriminate].
  destruct (getTargets api h1) as [[targets|reason] h2] eqn:Eg; [|discriminate].
  destruct (filter _ targets) as [|entry rest] eqn:Ef; [discriminate|].
  simpl. intros [= <- <- <-].
  destruct (filter_head _ _ _ _ Ef) as [Hin Hatt].
  exists u, h1, targets, entry.
  assert (Hother : forall k, k <> "targetId" -> k <> "canAccessOpener" ->
            prop (set "canAccessOpener" (VBool false)
                    (set "targetId" (prop entry "id") entry)) k
            = prop entry k).
  { intros k H1 H2. now rewrite !prop_set_other. }
  repeat (split; [first [assumption | reflexivity]|]).
  split; [simpl; apply Hother; discriminate|].
  split; [simpl; rewrite prop_set_other by discriminate; apply prop_set_same|].
  split; [apply prop_set_same|].
  split; [exact Hother|].
  split; [|repeat split].
  simpl. rewrite Hother by discriminate.
  unfold attached_to in Hatt. apply andb_prop in Hatt as [_ Hatt]. simpl in Hatt.
  destruct (prop entry "tabId"); try discriminate.
  apply Z.eqb_eq in Hatt. now subst.
Qed.

(** X9.  The transport that [create] returns is built from an entry of
    the facade's target list that is attached with the requested tab: its
    session identifier and its [targetId] are the entry's [id],
    [canAccessOpener] is false, every other property is the entry's, its
    debuggee is the requested tab, its delay is 40 ms and no callback is
    set. *)
Theorem created_transport
  (tab : Z) (functionSerializer : option fn) (can_construct : bool)
  (current : FunctionCtor) (h h' : F) (transport : Transport)
  (binding : FunctionCtor) :
  create api tab functionSerializer can_construct current h
  = (inr transport, h', binding) ->
  exists u h1 targets entry,
    attach api {| tabId := VNum tab |} "1.3" h = (Resolved u, h1)
    /\ getTargets api h1 = (Resolved targets, h')
    /\ In entry targets
    /\ attached_to {| tabId := VNum tab |} entry = true
    /\ _sessionId transport = prop entry "id"
    /\ prop (target transport) "targetId" = prop entry "id"
    /\ prop (target transport) "canAccessOpener" = VBool false
    /\ (forall k, k <> "targetId" -> k <> "canAccessOpener" ->
          prop (target transport) k = prop entry k)
    /\ debugee transport = {| tabId := VNum tab |}
    /\ delay transport = 40
    /\ onmessage transport = None
    /\ onclose transport = None.
Proof.
  unfold create, _getTargetInfo.
  destruct (attach api _ _ h) as [[u|reason] h1] eqn:Ea; [|discriminate].
  destruct (getTargets api h1) as [[targets|reason] h2] eqn:Eg; [|discriminate].
  destruct (filter _ targets) as [|entry rest] eqn:Ef; [discriminate|].
  simpl. intros [= <- <- <-].
  destruct (filter_head _ _ _ _ Ef) as [Hin Hatt].
  exists u, h1, targets, entry.
  assert (Hother : forall k, k <> "targetId" -> k <> "canAccessOpener" ->
            prop (set "canAccessOpener" (VBool false)
                    (set "targetId" (prop entry "id") entry)) k
            = prop entry k).
  { intros k H1 H2. now rewrite !prop_set_other. }
  repeat (split; [first [assumption | reflexivity]|]).
  split; [simpl; apply Hother; discriminate|].
  split; [simpl; rewrite prop_set_other by discriminate; apply prop_set_same|].
  split; [apply prop_set_same|].
  split; [exact Hother|].
  split; [|repeat split].
  simpl. rewrite Hother by discriminate.
  unfold attached_to in Hatt. apply andb_prop in Hatt as [_ Hatt]. simpl in Hatt.
  destruct (prop entry "tabId"); try discriminate.
  apply Z.eqb_eq in Hatt. now subst.
Qed.

(** ** From [create] to the messages *)

(** X12.  A transport that [create] returned for a tab relays, at any
    later time, the events of that tab and of no other: an event of the
    tab is handed over with the [id] of the facade's entry as
    [sessionId], an event of a tab with another number is dropped. *)
Theorem created_transport_relays_its_tab
  (tab : Z) (functionSerializer : option fn) (can_construct : bool)
  (current : FunctionCtor) (h h' : F) (transport : Transport)
  (binding : FunctionCtor) (ins : list input) (w : World F) (os : list obs)
  (f : fn) :
  create api tab functionSerializer can_construct current h
  = (inr transport, h', binding) ->
  run api JSON_parse ins (start transport h') = (w, os) ->
  onmessage (this w) = Some f ->
  forall n method params,
    (n = tab ->
     exists event,
       step api JSON_parse (HostEvent {| tabId := VNum n |} method params) w
       = (w, [OnMessage f event])
       /\ field "method" event = Some (JStr method)
       /\ field "params" event = to_json params
       /\ field "sessionId" event = to_json (_sessionId transport))
    /\ (n <> tab ->
        step api JSON_parse (HostEvent {| tabId := VNum n |} method params) w
        = (w, [])).
Proof.
  intros Hc Hrun Hf n method params.
  destruct (create_builds _ _ _ _ _ _ _ _ Hc)
    as [u [h1 [targets [entry [_ [_ [_ [_ [_ [_ [_ [_ [Hd _]]]]]]]]]]]]].
  pose proof (run_keeps_identity ins (start transport h')) as Hid.
  rewrite Hrun in Hid. simpl in Hid. destruct Hid as [Ht [Hs Hdeb]].
  assert (Htab : prop (target (this w)) "tabId" = VNum tab).
  { rewrite Ht. destruct (create_builds _ _ _ _ _ _ _ _ Hc)
      as [u' [h1' [targets' [entry' [_ [_ [_ [Hatt [_ [_ [_ [Hk _]]]]]]]]]]]].
    rewrite Hk by discriminate.
    unfold attached_to in Hatt. apply andb_prop in Hatt as [_ Hatt].
    simpl in Hatt. destruct (prop entry' "tabId"); try discriminate.
    apply Z.eqb_eq in Hatt. now subst. }
  split.
  - intros ->.
    destruct (relay_of_own_tab api JSON_parse w {| tabId := VNum tab |}
                method params f) as [event [E [Hm [Hp Hsid]]]];
      [simpl; rewrite Htab; apply Z.eqb_refl|exact Hf|].
    exists event. rewrite <- Hs. now repeat split.
  - intros Hne. simpl. unfold onEvent_listener. rewrite Htab. simpl.
    destruct (n =? tab) eqn:E; [|reflexivity].
    apply Z.eqb_eq in E. contradiction.
Qed.

(** X13.  A transport that [create] returned for a tab sends, at any
    later time, every forwarded command and every [detach] to the
    debuggee [{tabId}] of that tab, with the method and the params of the
    message as they are. *)
Theorem created_transport_calls_its_tab
  (tab : Z) (functionSerializer : option fn) (can_construct : bool)
  (current : FunctionCtor) (h h' : F) (transport : Transport)
  (binding : FunctionCtor) (ins : list input) (w : World F) (os : list obs) :
  create api tab functionSerializer can_construct current h
  = (inr transport, h', binding) ->
  run api JSON_parse ins (start transport h') = (w, os) ->
  (forall message command m,
     JSON_parse message = Some command ->
     get command "method" = Some m ->
     includes targetCommands m = false ->
     let call := sendCommand api {| tabId := VNum tab |} m
                   (get_opt command "params") (host w) in
     send api JSON_parse message w
     = (with_jobs (jobs w ++ [AfterSendCommand command (fst call)])
          (with_host (snd call) w), []))
  /\ (let call := detach api {| tabId := VNum tab |} (host w) in
      close api w
      = (with_jobs (jobs w ++ [AfterDetach (fst call)]) (with_host (snd call) w),
         [])).
Proof.
  intros Hc Hrun.
  destruct (create_builds _ _ _ _ _ _ _ _ Hc)
    as [u [h1 [targets [entry [_ [_ [_ [_ [_ [_ [_ [_ [Hd _]]]]]]]]]]]]].
  pose proof (run_keeps_identity ins (start transport h')) as Hid.
  rewrite Hrun in Hid. simpl in Hid. destruct Hid as [_ [_ Hdeb]].
  rewrite Hd in Hdeb. split.
  - intros message command m Hp Hm Hfwd call. unfold send.
    rewrite Hp, Hm, Hfwd, Hdeb. fold call. now destruct call.
  - intros call. unfold close. rewrite Hdeb. fold call. now destruct call.
Qed.

(** X10.  [create] replaces the global [Function] only when it
    succeeds: by the caller's serializer if there is one, else by the
    no-op factory if [new Function()] throws, else not at all.  When it
    fails the binding is the one it found; and a failure of [getTargets]
    fails [create] with the facade's reason, the host being left as that
    call left it. *)
Theorem create_Function_binding
  (tab : Z) (functionSerializer : option fn) (can_construct : bool)
  (current : FunctionCtor) (h : F) :
  let r := create api tab functionSerializer can_construct current h in
  (forall e, fst (fst r) = inl e -> snd r = current)
  /\ (forall transport,
        fst (fst r) = inr transport ->
        snd r = match functionSerializer with
                | Some f => Serializer f
                | None => if can_construct then current else NoopFactory
                end)
  /\ (forall u h1 reason h2,
        attach api {| tabId := VNum tab |} "1.3" h = (Resolved u, h1) ->
        getTargets api h1 = (Rejected reason, h2) ->
        r = (inl (Reason reason), h2, current)).
Proof.
  unfold create, _getTargetInfo. cbv zeta.
  destruct (attach api _ _ h) as [[u|reason] h1] eqn:Ea.
  - destruct (getTargets api h1) as [[targets|reason] h2] eqn:Eg.
    + destruct (filter _ targets) as [|entry rest]; simpl;
        (split; [|split]); try discriminate; try reflexivity.
      * intros u0 h0 reason h3 [= <- <-]. rewrite Eg. discriminate.
      * intros u0 h0 reason h3 [= <- <-]. rewrite Eg. discriminate.
    + simpl. split; [reflexivity|]. split; [discriminate|].
      intros u0 h0 reason0 h3 [= <- <-]. rewrite Eg. now intros [= <- <-].
  - simpl. split; [reflexivity|]. split; discriminate.
Qed.

(** ** The order of teardown after [Target.closeTarget] *)

(** X11.  After [Target.closeTarget], once the delay has passed, the
    timeout that runs first is the one that calls [close]: the facade's
    [detach] is called before the client gets the reply.  The next
    timeout hands over the reply, [{success: true}]; the
    [Target.detachedFromTarget] event can only follow the settlement of
    [detach]. *)
Theorem closeTarget_detaches_before_reply
  (w : World F) (message : string) (command : value) (f : fn) :
  JSON_parse message = Some command ->
  get command "method" = Some (VStr "Target.closeTarget") ->
  timers w = [] ->
  onmessage (this w) = Some f ->
  let d := Z.max 0 (delay (this w)) in
  let call := detach api (debugee (this w)) (host w) in
  let first := run api JSON_parse [Send message; Elapse d; Expire] w in
  let second := run api JSON_parse [Send message; Elapse d; Expire; Expire] w in
  exists response,
    field "result" (JSON_stringify response)
    = Some (JObj [("success", JBool true)])
    /\ snd (run api JSON_parse [Send message; Elapse d] w) = []
    /\ snd first = []
    /\ host (fst first) = snd call
    /\ jobs (fst first) = (jobs w ++ [AfterDetach (fst call)])%list
    /\ timers (fst first) = [(now w + d, DeliverResponse response)]
    /\ snd second = [OnMessage f (JSON_stringify response)]
    /\ timers (fst second) = []
    /\ jobs (fst second) = (jobs w ++ [AfterDetach (fst call)])%list.
Proof.
  intros Hp Hm Ht Hf d call first second.
  set (R := set "result" (VObj [("success", VBool true)])
              (set "result" (VObj []) (set "error" VUndefined (spread command)))).
  exists R. split; [unfold R; now rewrite field_set_same|].
  assert (Hin : In "Target.closeTarget" targetCommands) by (simpl; tauto).
  destruct (send_emulated api JSON_parse w message command _ Hp Hm Hin)
    as [Hs Hg].
  set (w1 := paced R (with_timers [(now w + d, CallClose)] w)).
  assert (Hsend : step api JSON_parse (Send message) w = (w1, [])).
  { cbn [step]. rewrite Hs. unfold _handleTargetCommand. rewrite Hg.
    cbn [is_method strict_equal String.eqb Ascii.eqb Bool.eqb].
    unfold seq, setTimeout, _delaySend, setTimeout. cbn [fst snd].
    rewrite Ht. reflexivity. }
  set (w2 := with_now (now w + Z.max 0 d) w1).
  assert (Helapse : step api JSON_parse (Elapse d) w1 = (w2, [])) by reflexivity.
  assert (Hdue : (now w + d <=? now w + Z.max 0 d) = true).
  { apply Z.leb_le. subst d. lia. }
  assert (Ho2 : orderly w2).
  { split; simpl.
    - split; [|split; [intros x []|exact I]].
      intros x [<-|[]]. simpl. subst d. lia.
    - intros x [<-|[<-|[]]]; simpl; subst d; lia. }
  set (w2' := with_timers [(now w + d, DeliverResponse R)] w2).
  assert (E2 : step api JSON_parse Expire w2 = close api w2').
  { rewrite (orderly_Expire w2 Ho2).
    change (timers w2)
      with [(now w + d, CallClose); (now w + d, DeliverResponse R)].
    cbv beta iota. change (now w2) with (now w + Z.max 0 d).
    now rewrite Hdue. }
  assert (Ec : close api w2'
               = (with_jobs (jobs w ++ [AfterDetach (fst call)])
                    (with_host (snd call) w2'), [])).
  { unfold close.
    change (detach api (debugee (this w2')) (host w2')) with call.
    now destruct call. }
  set (w3 := with_jobs (jobs w ++ [AfterDetach (fst call)])
               (with_host (snd call) w2')) in *.
  assert (Ho3 : orderly w3).
  { split; simpl.
    - split; [intros x []|exact I].
    - intros x [<-|[]]; simpl; subst d; lia. }
  assert (E3 : step api JSON_parse Expire w3
               = (with_timers [] w3, [OnMessage f (JSON_stringify R)])).
  { rewrite (orderly_Expire w3 Ho3).
    change (timers w3) with [(now w + d, DeliverResponse R)].
    cbv beta iota. change (now w3) with (now w + Z.max 0 d).
    rewrite Hdue. cbn [fire]. unfold _emit.
    change (onmessage (this (with_timers [] w3))) with (onmessage (this w)).
    now rewrite Hf. }
  assert (Hfirst : first = (w3, [])).
  { subst first. cbn [run]. unfold seq, skip.
    now rewrite Hsend, Helapse, E2, Ec. }
  assert (Hsecond : second
                    = (with_timers [] w3, [OnMessage f (JSON_stringify R)])).
  { subst second. cbn [run]. unfold seq, skip.
    now rewrite Hsend, Helapse, E2, Ec, E3. }
  split.
  { cbn [run]. unfold seq, skip. now rewrite Hsend, Helapse. }
  rewrite Hfirst, Hsecond. repeat split; reflexivity.
Qed.

(** ** Pacing *)



End Behaviour.

(** ** The further properties at concrete inputs *)

Lemma other_tabs_ignored_witness :
  forallb (from_other_tab Demo.world7) Demo.strangers = true
  /\ run Demo.api Demo.parse Demo.strangers Demo.world7 = (Demo.world7, []).
Proof.
  split; [reflexivity|].
  exact (other_tabs_ignored Demo.api Demo.parse Demo.strangers Demo.world7
           eq_refl).
Defined.

Lemma send_rejects_only_malformed_witness :
  (Demo.parse "{" = None
   /\ In (SendRejected SyntaxError)
        (snd (run Demo.api Demo.parse
                [Send Demo.pageCrash; Send "{"; Settle 0] Demo.world7)))
  /\ send Demo.api Demo.parse "{" Demo.world7
     = (Demo.world7, [SendRejected SyntaxError])
  /\ exists message,
       In (Send message) [Send Demo.pageCrash; Send "{"; Settle 0]
       /\ ((Demo.parse message = None /\ SyntaxError = SyntaxError)
           \/ (exists command,
                 Demo.parse message = Some command
                 /\ get command "method" = None /\ SyntaxError = TypeError)).
Proof.
  split; [split; [reflexivity|simpl; tauto]|].
  destruct (send_rejects_only_malformed Demo.api Demo.parse Demo.world7)
    as [Hsyntax [_ Hrun]].
  split; [exact (Hsyntax "{" eq_refl)|].
  apply Hrun. simpl. tauto.
Defined.

Lemma facade_called_by_send_and_close_only_witness :
  (Demo.parse Demo.getBrowserContexts
   = Some (Demo.command 1 "Target.getBrowserContexts" (VObj []))
   /\ In "Target.getBrowserContexts" targetCommands)
  /\ host (fst (send Demo.api Demo.parse Demo.getBrowserContexts Demo.world7))
     = Demo.host7
  /\ host (fst (step Demo.api Demo.parse (HostDetach (Demo.tab 7)) Demo.world7))
     = Demo.host7.
Proof.
  split; [split; [reflexivity|simpl; tauto]|].
  destruct (facade_called_by_send_and_close_only Demo.api Demo.parse Demo.world7)
    as [Hem [Hother _]].
  split.
  - refine (proj1 (Hem Demo.getBrowserContexts _ "Target.getBrowserContexts"
                     eq_refl eq_refl _)).
    simpl. tauto.
  - exact (Hother (HostDetach (Demo.tab 7)) eq_refl).
Defined.

Lemma replies_only_by_timeout_witness :
  Send Demo.attachToTarget <> Expire
  /\ events_only
       (snd (step Demo.api Demo.parse (Send Demo.attachToTarget) Demo.world7)).
Proof.
  split; [discriminate|].
  apply replies_only_by_timeout. discriminate.
Defined.

Lemma replies_answer_requests_witness :
  In (JObj [("id", JNum 1); ("method", JStr "Target.getBrowserContexts");
            ("params", JObj []);
            ("result", JObj [("browserContextIds", JArr [])])])
     (messages_of
        (snd (run Demo.api Demo.parse
                [Send Demo.getBrowserContexts; Elapse 40; Expire] Demo.world7)))
  /\ (is_event
        (JObj [("id", JNum 1); ("method", JStr "Target.getBrowserContexts");
               ("params", JObj []);
               ("result", JObj [("browserContextIds", JArr [])])]) = true
      \/ answers Demo.parse [Send Demo.getBrowserContexts; Elapse 40; Expire]
           (JObj [("id", JNum 1); ("method", JStr "Target.getBrowserContexts");
                  ("params", JObj []);
                  ("result", JObj [("browserContextIds", JArr [])])])).
Proof.
  split; [left; reflexivity|].
  apply (replies_answer_requests Demo.api Demo.parse
           [Send Demo.getBrowserContexts; Elapse 40; Expire] Demo.world7);
    [reflexivity|reflexivity|left; reflexivity].
Defined.

Lemma one_reply_for_each_command_witness :
  (forallb (sends_commands Demo.parse) Demo.busy_session = true
   /\ forallb keeps_onmessage Demo.busy_session = true
   /\ accepted_all Demo.parse Demo.busy_session = 7%nat)
  /\ (replies_of (snd (run Demo.api Demo.parse Demo.busy_session Demo.world7))
      + owed (fst (run Demo.api Demo.parse Demo.busy_session Demo.world7)))%nat
     = accepted_all Demo.parse Demo.busy_session.
Proof.
  split; [repeat split; reflexivity|].
  apply (one_reply_for_each_command Demo.api Demo.parse Demo.busy_session
           Demo.world7 demo_sendCommand_object);
    try reflexivity.
  discriminate.
Defined.

Lemma oldest_timeout_first_witness :
  forallb keeps_delay Demo.busy_session = true
  /\ orderly (fst (run Demo.api Demo.parse Demo.busy_session Demo.world7)).
Proof.
  split; [reflexivity|].
  exact (proj1 (oldest_timeout_first Demo.api Demo.parse Demo.busy_session
                  Demo.world7 eq_refl eq_refl)).
Defined.

Lemma created_transport_witness :
  create Demo.api 7 None true NativeFunction Demo.fresh
  = (inr (new_Transport Demo.target7), Demo.host7, NativeFunction)
  /\ exists entry,
       attached_to (Demo.tab 7) entry = true
       /\ _sessionId (new_Transport Demo.target7) = prop entry "id"
       /\ prop (target (new_Transport Demo.target7)) "targetId" = prop entry "id".
Proof.
  split; [reflexivity|].
  destruct (created_transport Demo.api 7 None true NativeFunction Demo.fresh
              Demo.host7 (new_Transport Demo.target7) NativeFunction eq_refl)
    as [u [h1 [targets [entry [_ [_ [_ [Hatt [Hs [Ht _]]]]]]]]]].
  exists entry. repeat split; assumption.
Defined.

Lemma create_Function_binding_witness :
  fst (fst (create Demo.api 9 (Some 5%nat) false NativeFunction Demo.fresh))
  = inl (Reason (Demo.new_Error "Cannot attach to this target."))
  /\ snd (create Demo.api 9 (Some 5%nat) false NativeFunction Demo.fresh)
     = NativeFunction
  /\ snd (create Demo.api 7 None false NativeFunction Demo.fresh) = NoopFactory.
Proof.
  split; [reflexivity|]. split.
  - exact (proj1 (create_Function_binding Demo.api 9 (Some 5%nat) false
                    NativeFunction Demo.fresh) _ eq_refl).
  - exact (proj1 (proj2 (create_Function_binding Demo.api 7 None false
                           NativeFunction Demo.fresh)) _ eq_refl).
Defined.

Lemma closeTarget_detaches_before_reply_witness :
  (Demo.parse Demo.closeTarget
   = Some (Demo.command 7 "Target.closeTarget" (VObj [("targetId", VStr "A1")]))
   /\ timers Demo.world7 = [] /\ onmessage (this Demo.world7) = Some 1%nat)
  /\ exists response,
       field "result" (JSON_stringify response)
       = Some (JObj [("success", JBool true)])
       /\ snd (run Demo.api Demo.parse
                 [Send Demo.closeTarget; Elapse 40; Expire] Demo.world7) = []
       /\ Demo.calls
            (host (fst (run Demo.api Demo.parse
                          [Send Demo.closeTarget; Elapse 40; Expire] Demo.world7)))
          = [Demo.CallAttach (Demo.tab 7) "1.3"; Demo.CallGetTargets;
             Demo.CallDetach (Demo.tab 7)]
       /\ snd (run Demo.api Demo.parse
                 [Send Demo.closeTarget; Elapse 40; Expire; Expire] Demo.world7)
          = [OnMessage 1%nat (JSON_stringify response)].
Proof.
  split; [repeat split; reflexivity|].
  destruct (closeTarget_detaches_before_reply Demo.api Demo.parse Demo.world7
              Demo.closeTarget _ 1%nat eq_refl eq_refl eq_refl eq_refl)
    as [response [Hr [_ [H1 [Hh [_ [_ [H2 _]]]]]]]].
  exists response. split; [exact Hr|]. split; [exact H1|].
  split; [|exact H2].
  change (Z.max 0 (delay (this Demo.world7))) with 40 in Hh.
  rewrite Hh. reflexivity.
Defined.

Lemma created_transport_relays_its_tab_witness :
  (create Demo.api 7 None true NativeFunction Demo.fresh
   = (inr (new_Transport Demo.target7), Demo.host7, NativeFunction)
   /\ onmessage
        (this (fst (run Demo.api Demo.parse
                      [SetOnmessage (Some 1%nat); Send Demo.navigate]
                      (start (new_Transport Demo.target7) Demo.host7))))
      = Some 1%nat)
  /\ (exists event,
        step Demo.api Demo.parse
          (HostEvent (Demo.tab 7) "Page.loadEventFired" (VObj []))
          (fst (run Demo.api Demo.parse
                  [SetOnmessage (Some 1%nat); Send Demo.navigate]
                  (start (new_Transport Demo.target7) Demo.host7)))
        = (fst (run Demo.api Demo.parse
                  [SetOnmessage (Some 1%nat); Send Demo.navigate]
                  (start (new_Transport Demo.target7) Demo.host7)),
           [OnMessage 1%nat event])
        /\ field "sessionId" event = Some (JStr "A1"))
  /\ step Demo.api Demo.parse
       (HostEvent (Demo.tab 8) "Page.loadEventFired" (VObj []))
       (fst (run Demo.api Demo.parse
               [SetOnmessage (Some 1%nat); Send Demo.navigate]
               (start (new_Transport Demo.target7) Demo.host7)))
     = (fst (run Demo.api Demo.parse
               [SetOnmessage (Some 1%nat); Send Demo.navigate]
               (start (new_Transport Demo.target7) Demo.host7)), []).
Proof.
  split; [split; reflexivity|].
  pose proof (fun n =>
    created_transport_relays_its_tab Demo.api Demo.parse 7 None true
      NativeFunction Demo.fresh Demo.host7 (new_Transport Demo.target7)
      NativeFunction [SetOnmessage (Some 1%nat); Send Demo.navigate]
      _ _ 1%nat eq_refl eq_refl eq_refl n "Page.loadEventFired" (VObj [])) as H.
  split.
  - destruct (proj1 (H 7) eq_refl) as [event [E [_ [_ Hs]]]].
    exists event. split; [exact E|exact Hs].
  - apply (proj2 (H 8)). discriminate.
Defined.

Lemma created_transport_calls_its_tab_witness :
  create Demo.api 7 None true NativeFunction Demo.fresh
  = (inr (new_Transport Demo.target7), Demo.host7, NativeFunction)
  /\ Demo.calls
       (host (fst (close Demo.api
                     (fst (run Demo.api Demo.parse [Send Demo.navigate; Settle 0]
                             (start (new_Transport Demo.target7) Demo.host7))))))
     = [Demo.CallAttach (Demo.tab 7) "1.3"; Demo.CallGetTargets;
        Demo.CallSendCommand (Demo.tab 7) (VStr "Page.navigate")
          (VObj [("url", VStr "https://example.com")]);
        Demo.CallDetach (Demo.tab 7)].
Proof.
  split; [reflexivity|].
  set (r := run Demo.api Demo.parse [Send Demo.navigate; Settle 0]
              (start (new_Transport Demo.target7) Demo.host7)).
  destruct (created_transport_calls_its_tab Demo.api Demo.parse 7 None true
              NativeFunction Demo.fresh Demo.host7
              (new_Transport Demo.target7) NativeFunction
              [Send Demo.navigate; Settle 0] (fst r) (snd r) eq_refl
              (surjective_pairing r)) as [_ Hclose].
  cbv zeta in Hclose. rewrite Hclose. reflexivity.
Defined.

